(** * Weekendly: the scheduling engine, the viewport window and the plan store

    A shallow embedding of the weekend planner's TypeScript sources:

    - [JS]: the fragment of the JavaScript runtime the code relies on
      (numbers with NaN, [String], [padStart], [split], [parseInt],
      [Number], [trim], [Math.round], ...);
    - [Schedule]: the [WeekendSchedule] component (time helpers,
      [hasConflict], [handleDrop], [saveEdit], [removeActivity],
      [normalizeTime]);
    - [Planner]: [pickNextStartTime] of the planner page;
    - [Virtual]: the [useVirtualization] hook;
    - [Persistence]: [updatePlan] of the [PersistenceManager], on both
      the IndexedDB and the localStorage backend;
    - [Page]: [addFromBrowser], [escapeIcs] and [getUpcomingWeekend] of
      the planner page;
    - [Timeline]: the [useTimelineVirtualization] hook;
    - [PlanStore]: saving, deleting and finding plans.

    Modelling conventions.  A JavaScript number that the code computes from
    minutes and hours is an integer ([Z]); a number that a form or a parse
    can leave without a value, such as the duration of an activity, is an
    [option Z] with [None] for NaN.  Integers stand for themselves up to
    [Number.MAX_SAFE_INTEGER]; texts of numbers are decimal, as JavaScript
    prints them below 10^21.  Pixel geometry and the quotients handed to
    [Math.round], [Math.floor] and [Math.ceil] are exact rationals ([Q]);
    rounding error of IEEE doubles is outside the model, and the results
    on the viewport window are stated so that a shift of one row by such
    an error does not touch them.  A string is a sequence of code units
    below 256.  React state is threaded explicitly: an updater
    [prev => next] is a function on the activity list, toasts are returned
    as values, and [console.log] output is dropped. *)

From Stdlib Require Import ZArith QArith Qround Qminmax Lia Lqa List String Ascii Bool.
From stdpp Require Import base gmap strings list.

Import ListNotations.

Local Open Scope Z_scope.

(* ===================================================================== *)
(** ** The JavaScript fragment                                            *)
(* ===================================================================== *)

Module JS.

(** A number that may be NaN. *)
Definition num : Type := option Z.

Definition NaN : num := None.

Definition add (a b : num) : num :=
  match a, b with
  | Some x, Some y => Some (x + y)
  | _, _ => None
  end.

Definition sub (a b : num) : num :=
  match a, b with
  | Some x, Some y => Some (x - y)
  | _, _ => None
  end.

Definition mul (a b : num) : num :=
  match a, b with
  | Some x, Some y => Some (x * y)
  | _, _ => None
  end.

(** [a < b]: false as soon as one side is NaN. *)
Definition lt (a b : num) : bool :=
  match a, b with
  | Some x, Some y => x <? y
  | _, _ => false
  end.

(** [Math.max] and [Math.min] propagate NaN. *)
Definition Math_max (a b : num) : num :=
  match a, b with
  | Some x, Some y => Some (Z.max x y)
  | _, _ => None
  end.

Definition Math_min (a b : num) : num :=
  match a, b with
  | Some x, Some y => Some (Z.min x y)
  | _, _ => None
  end.

(** [Math.floor], [Math.ceil] and [Math.round] on an exact quotient;
    [Math.round] rounds a tie towards the larger integer. *)
Definition Math_floor (x : Q) : Z := Qfloor x.
Definition Math_ceil (x : Q) : Z := Qceiling x.
Definition Math_round (x : Q) : Z := Qfloor (x + (1 # 2)).

(** [a % b] on integers: the remainder takes the sign of the dividend. *)
Definition rem (a b : Z) : Z := Z.rem a b.

(** *** Characters *)

Definition isDigit (c : ascii) : bool :=
  let n := nat_of_ascii c in (48 <=? n)%nat && (n <=? 57)%nat.

Definition digitValue (c : ascii) : Z := Z.of_nat (nat_of_ascii c) - 48.

Definition digitChar (d : Z) : ascii := ascii_of_nat (48 + Z.to_nat d).

(** White space and line terminators among the code units below 256:
    TAB, LF, VT, FF, CR, SP and NBSP. *)
Definition isWhiteSpace (c : ascii) : bool :=
  let n := nat_of_ascii c in
  (n =? 9)%nat || (n =? 10)%nat || (n =? 11)%nat || (n =? 12)%nat
  || (n =? 13)%nat || (n =? 32)%nat || (n =? 160)%nat.

(** [Number.MAX_SAFE_INTEGER], 2^53 - 1: up to it every integer is a
    number of JavaScript, and sums and products that stay below it are
    exact. *)
Definition MAX_SAFE_INTEGER : Z := 9007199254740991.

(** *** [String(n)] on integers *)

(** The decimal text of an integer.  JavaScript prints a number in this
    form while its magnitude is below 10^21 and in exponent form from
    there on; the results that print a number bound it or leave the text
    unread. *)

(** The decimal digits of a non-negative [n], most significant first. *)
Fixpoint decDigits (fuel : nat) (n : Z) (acc : list Z) : list Z :=
  match fuel with
  | O => acc
  | S f => if n <? 10 then n :: acc
           else decDigits f (n / 10) (n mod 10 :: acc)
  end.

Definition digitsFuel (n : Z) : nat := S (Z.to_nat (Z.log2 n)).

Definition digitString (ds : list Z) : string :=
  string_of_list_ascii (List.map digitChar ds).

Definition String_Z (n : Z) : string :=
  if n <? 0
  then String "-"%char (digitString (decDigits (digitsFuel (- n)) (- n) []))
  else digitString (decDigits (digitsFuel n) n []).

Definition String_num (n : num) : string :=
  match n with
  | Some z => String_Z z
  | None => "NaN"%string
  end.

(** *** [padStart], [split], [trim] *)

Fixpoint repeatChar (c : ascii) (n : nat) : string :=
  match n with
  | O => EmptyString
  | S k => String c (repeatChar c k)
  end.

(** [s.padStart(target, fill)] for a one-character [fill]. *)
Definition padStart (target : nat) (fill : ascii) (s : string) : string :=
  String.append (repeatChar fill (target - String.length s)) s.

(** [s.split(sep)] for a one-character separator: never empty. *)
Fixpoint split (sep : ascii) (s : string) : list string :=
  match s with
  | EmptyString => [EmptyString]
  | String c s' =>
      if Ascii.eqb c sep then EmptyString :: split sep s'
      else match split sep s' with
           | h :: t => String c h :: t
           | [] => [String c EmptyString]
           end
  end.

Fixpoint trimStart (s : string) : string :=
  match s with
  | EmptyString => EmptyString
  | String c s' => if isWhiteSpace c then trimStart s' else s
  end.

(** Drops trailing white space: the recursive result is empty exactly
    when the rest holds white space only. *)
Fixpoint trimEnd (s : string) : string :=
  match s with
  | EmptyString => EmptyString
  | String c s' =>
      match trimEnd s' with
      | EmptyString => if isWhiteSpace c then EmptyString else String c EmptyString
      | t => String c t
      end
  end.

Definition trim (s : string) : string := trimEnd (trimStart s).

(** *** [parseInt(s, 10)] and [Number(s)] *)

(** The values of the leading decimal digits of [s]. *)
Fixpoint takeDigits (s : string) : list Z :=
  match s with
  | String c s' => if isDigit c then digitValue c :: takeDigits s' else []
  | EmptyString => []
  end.

Definition digitsValue (ds : list Z) : Z :=
  fold_left (fun acc d => 10 * acc + d) ds 0.

Definition isNil {A : Type} (l : list A) : bool :=
  match l with [] => true | _ :: _ => false end.

(** [parseInt(s, 10)]: leading white space is skipped, one sign is read,
    then the longest run of digits; no digit gives NaN. *)
Definition parseInt (s : string) : num :=
  let s1 := trimStart s in
  let '(sign, s2) :=
    match s1 with
    | String "-"%char r => (-1, r)
    | String "+"%char r => (1, r)
    | _ => (1, s1)
    end in
  let ds := takeDigits s2 in
  if isNil ds then NaN else Some (sign * digitsValue ds).

Fixpoint allDigits (s : string) : bool :=
  match s with
  | EmptyString => true
  | String c s' => isDigit c && allDigits s'
  end.

(** [Number(s)] on the texts whose value is an integer written in
    decimal: white space is trimmed on both sides, the empty text is 0,
    and an optional sign is followed by digits only.  Every other text
    gives [None]: for most of them JavaScript returns NaN, but literals
    with a fraction, an exponent, a radix prefix or [Infinity] have a
    value that is no integer of this model; the results below apply
    [Number] to digit strings only. *)
Definition Number (s : string) : num :=
  let t := trim s in
  match t with
  | EmptyString => Some 0
  | String "-"%char r =>
      if allDigits r && negb (String.eqb r EmptyString)
      then Some (- digitsValue (takeDigits r)) else NaN
  | String "+"%char r =>
      if allDigits r && negb (String.eqb r EmptyString)
      then Some (digitsValue (takeDigits r)) else NaN
  | _ => if allDigits t then Some (digitsValue (takeDigits t)) else NaN
  end.

(** [x || 0] for an array slot that may be missing ([undefined]) or NaN:
    every falsy value becomes 0. *)
Definition orZero (x : option num) : Z :=
  match x with
  | Some (Some z) => z
  | _ => 0
  end.

End JS.

(* ===================================================================== *)
(** ** The schedule component                                             *)
(* ===================================================================== *)

Module Schedule.

Import JS.

Inductive DayKey := saturday | sunday.
Inductive Mood := chill | energetic | social | focus.
Inductive Category := outdoor | food | fitness | culture | home | other.

#[global] Instance DayKey_eq_dec : EqDecision DayKey.
Proof. solve_decision. Defined.

Record WeekendActivity := {
  id : string;
  title : string;
  category : Category;
  day : DayKey;
  start : string;          (* "HH:MM" 24h *)
  durationMins : num;      (* minutes, >= 15; NaN when a form read no number *)
  mood : option Mood;
  notes : option string;
}.

Definition HOURS_FALLBACK_START : Z := 5.
Definition HOURS_FALLBACK_END : Z := 23.
Definition MIN_SLOT_MINUTES : Z := 15.

(** [toMinutes]: [time.split(":").map(n => parseInt(n, 10))], then
    [h * 60 + (m || 0)]. *)
Definition toMinutes (time : string) : num :=
  let parts := List.map parseInt (split ":" time) in
  let h := nth 0 parts NaN in
  let m := nth_error parts 1 in
  add (mul h (Some 60)) (Some (orZero m)).

Definition toTimeString (total : Z) : string :=
  let h := Math_floor (inject_Z total / 60) in
  let m := rem total 60 in
  String.append (padStart 2 "0" (String_Z h))
    (String ":" (padStart 2 "0" (String_Z m))).

(** [toTimeString] on a total that may be NaN: [Math.floor(NaN / 60)] and
    [NaN % 60] are NaN, and [String(NaN)] is three characters long, so
    [padStart] adds nothing. *)
Definition toTimeString_num (total : num) : string :=
  let h := option_map (fun t => Math_floor (inject_Z t / 60)) total in
  let m := option_map (fun t => rem t 60) total in
  String.append (padStart 2 "0" (String_num h))
    (String ":" (padStart 2 "0" (String_num m))).

Definition clamp (val min max : Z) : Z := Z.min (Z.max val min) max.

(** [clamp] at the one call site that passes a ratio. *)
Definition clampQ (val min max : Q) : Q := Qmin (Qmax val min) max.

Definition roundToStep (minutes : Q) (step : Z) : Z :=
  Math_round (minutes / inject_Z step) * step.

(** The test of the [some] callback: [cStart < aEnd && aStart < cEnd]. *)
Definition overlapsWith (cStart cEnd : num) (a : WeekendActivity) : bool :=
  let aStart := toMinutes (start a) in
  let aEnd := add aStart (durationMins a) in
  lt cStart aEnd && lt aStart cEnd.

Definition hasConflict (activities : list WeekendActivity)
    (candidate : WeekendActivity) (excludeId : option string) : bool :=
  let dayActs :=
    List.filter
      (fun a => bool_decide (day a = day candidate)
                && bool_decide (Some (id a) <> excludeId))
      activities in
  let cStart := toMinutes (start candidate) in
  let cEnd := add cStart (durationMins candidate) in
  existsb (overlapsWith cStart cEnd) dayActs.

(** [normalizeTime]: the test [/^\d{1,2}:\d{2}$/] accepts one or two
    digits, a colon and two digits, and nothing else. *)
Definition matchesTimeFormat (val : string) : bool :=
  match list_ascii_of_string val with
  | [h1; c; m1; m2] =>
      isDigit h1 && Ascii.eqb c ":" && isDigit m1 && isDigit m2
  | [h1; h2; c; m1; m2] =>
      isDigit h1 && isDigit h2 && Ascii.eqb c ":" && isDigit m1 && isDigit m2
  | _ => false
  end.

(** [clamp] on numbers that may be NaN ([Math.max] and [Math.min]
    propagate it). *)
Definition clampNum (val min max : num) : num :=
  Math_min (Math_max val min) max.

Definition normalizeTime (val : string) : string :=
  if negb (matchesTimeFormat val) then "08:00"%string
  else
    let parts := List.map Number (split ":" val) in
    let h := nth 0 parts NaN in
    let m := nth 1 parts NaN in
    String.append
      (padStart 2 "0" (String_num (clampNum h (Some 0) (Some 23))))
      (String ":"
         (padStart 2 "0" (String_num (clampNum m (Some 0) (Some 59))))).

(** *** Events and outcomes *)

(** [getBoundingClientRect()] of the track, as far as it is read. *)
Record DOMRect := { top : Q; height : Q }.

(** The drag payload of the activity browser, after [JSON.parse]:
    a field that is absent is [None]. *)
Record Payload := {
  p_title : option string;
  p_category : option Category;
  p_durationMins : option Q;
  p_mood : option Mood;
  p_notes : option string;
}.

(** What [getData("application/weekendly-activity")] holds: nothing (the
    empty string), a text on which [JSON.parse] or the first property
    access throws, or a parsed payload. *)
Inductive ExternalData :=
| NoExternal
| Unparsable
| Parsed (payload : Payload).

Record DragEvent := {
  clientY : Q;
  currentTarget : option DOMRect;
  internalId : string;      (* getData("text/activity-id") *)
  external : ExternalData;
}.

Inductive Toast :=
| SchedulingConflict
| InvalidActivity
| AddedToSchedule (title : string) (day : DayKey)
| CouldntAddActivity
| RemovedActivity.

(** The state after a handler ran, and the toast it showed. *)
Definition Outcome : Type := list WeekendActivity * option Toast.

Definition truthyString (s : option string) : bool :=
  match s with
  | Some t => negb (String.eqb t EmptyString)
  | None => false
  end.

Definition truthyNumber (n : option Q) : bool :=
  match n with
  | Some q => negb (Qeq_bool q 0)
  | None => false
  end.

Definition isSome {A : Type} (o : option A) : bool :=
  match o with Some _ => true | None => false end.

(** [prev.map((a) => (a.id === target ? replacement : a))]. *)
Definition replaceById (target : string) (replacement : WeekendActivity)
    (prev : list WeekendActivity) : list WeekendActivity :=
  List.map (fun a => if String.eqb (id a) target then replacement else a) prev.

Section Component.

(** The props [startHour] and [endHour] of the component. *)
Variables startHour endHour : Z.

Definition getMinutesFromElement (clientY : Q) (el : option DOMRect)
    : option Z :=
  match el with
  | None => None
  | Some rect =>
      let PADDING_TOP := 8%Q in
      let PADDING_BOTTOM := 8%Q in
      let usableTop := (top rect + PADDING_TOP)%Q in
      let usableHeight :=
        Qmax 1 (height rect - (PADDING_TOP + PADDING_BOTTOM)) in
      let y := (clientY - usableTop)%Q in
      let totalMinutes := (endHour - startHour) * 60 in
      let ratio := clampQ (y / usableHeight) 0 1 in
      Some (startHour * 60
            + roundToStep (ratio * inject_Z totalMinutes) MIN_SLOT_MINUTES)
  end.

(** The activity [updated] of the move branch. *)
Definition movedActivity (found : WeekendActivity) (day' : DayKey)
    (mins : Z) : WeekendActivity :=
  let duration := durationMins found in
  let startStr :=
    toTimeString_num
      (clampNum (Some mins) (Some (startHour * 60))
         (sub (Some (endHour * 60)) duration)) in
  {| id := id found; title := title found; category := category found;
     day := day'; start := startStr; durationMins := durationMins found;
     mood := mood found; notes := notes found |}.

(** The normalized duration of an external drop. *)
Definition droppedDuration (d : Q) : Z :=
  Z.max MIN_SLOT_MINUTES (roundToStep d MIN_SLOT_MINUTES).

(** The activity [newAct] of the insert branch; [newId] stands for the
    identifier minted from the clock and the random generator.  It is
    built behind the guard of [handleDrop], where the title, the
    category and the duration are present: the defaults are never
    taken there. *)
Definition droppedActivity (newId : string) (payload : Payload)
    (day' : DayKey) (mins : Z) : WeekendActivity :=
  let duration := droppedDuration (default 0%Q (p_durationMins payload)) in
  let startStr :=
    toTimeString (clamp mins (startHour * 60) (endHour * 60 - duration)) in
  {| id := newId;
     title := default EmptyString (p_title payload);
     category := default other (p_category payload);
     durationMins := Some duration;
     day := day';
     start := startStr;
     mood := p_mood payload;
     notes := Some (default EmptyString (p_notes payload)) |}.

Definition handleDrop (e : DragEvent) (day' : DayKey) (newId : string)
    (prev : list WeekendActivity) : Outcome :=
  match getMinutesFromElement (clientY e) (currentTarget e) with
  | None => (prev, None)
  | Some mins =>
      if negb (String.eqb (internalId e) EmptyString) then
        (* Move existing activity *)
        match List.find (fun a => String.eqb (id a) (internalId e)) prev with
        | None => (prev, None)
        | Some found =>
            let updated := movedActivity found day' mins in
            if hasConflict prev updated (Some (internalId e))
            then (prev, Some SchedulingConflict)
            else (replaceById (internalId e) updated prev, None)
        end
      else
        match external e with
        | NoExternal => (prev, None)
        | Unparsable => (prev, Some CouldntAddActivity)
        | Parsed payload =>
            if negb (truthyString (p_title payload))
               || negb (isSome (p_category payload))
               || negb (truthyNumber (p_durationMins payload))
            then (prev, Some InvalidActivity)
            else
              let newAct := droppedActivity newId payload day' mins in
              if hasConflict prev newAct None
              then (prev, Some SchedulingConflict)
              else (prev ++ [newAct], Some (AddedToSchedule (title newAct) day'))
        end
  end.

End Component.

(** The activity [cleaned] that [saveEdit] builds from the draft. *)
Definition cleanedDraft (editDraft : WeekendActivity) : WeekendActivity :=
  {| id := id editDraft;
     title := (let t := trim (title editDraft) in
               if String.eqb t EmptyString then "Untitled"%string else t);
     category := category editDraft;
     day := day editDraft;
     start := normalizeTime (start editDraft);
     durationMins :=
       Math_max (Some MIN_SLOT_MINUTES)
         (option_map (fun d => roundToStep (inject_Z d) MIN_SLOT_MINUTES)
            (durationMins editDraft));
     mood := mood editDraft;
     notes := notes editDraft |}.

Definition saveEdit (editDraft : option WeekendActivity)
    (prev : list WeekendActivity) : Outcome :=
  match editDraft with
  | None => (prev, None)
  | Some draft =>
      let cleaned := cleanedDraft draft in
      if hasConflict prev cleaned (Some (id cleaned))
      then (prev, Some SchedulingConflict)
      else (replaceById (id cleaned) cleaned prev, None)
  end.

Definition removeActivity (target : string) (prev : list WeekendActivity)
    : Outcome :=
  (List.filter (fun a => negb (String.eqb (id a) target)) prev,
   Some RemovedActivity).

End Schedule.

(* ===================================================================== *)
(** ** The planner page: the next free slot                              *)
(* ===================================================================== *)

Module Planner.

Import JS.
Import Schedule.

(** The local [toMinutes] of [pickNextStartTime]:
    [t.split(":").map(Number)], then [h * 60 + m]; a missing [m] is
    [undefined] and makes the sum NaN. *)
Definition toMinutes (t : string) : num :=
  let parts := List.map Number (split ":" t) in
  let h := nth 0 parts NaN in
  let m := nth 1 parts NaN in
  add (mul h (Some 60)) m.

Definition pickNextStartTime (existing : list WeekendActivity) : string :=
  let satActs :=
    List.filter (fun a => bool_decide (day a = saturday)) existing in
  if (List.length satActs =? 0)%nat then "10:00"%string
  else
    let maxEnd :=
      fold_left
        (fun max a =>
           Math_max max (add (toMinutes (start a)) (durationMins a)))
        satActs (Some (7 * 60)) in
    let rounded :=
      option_map (fun x => Math_ceil (inject_Z x / 30) * 30) maxEnd in
    let clamped := Math_min rounded (Some (22 * 60 + 30)) in
    let h :=
      padStart 2 "0"
        (String_num (option_map (fun x => Math_floor (inject_Z x / 60)) clamped)) in
    let m :=
      padStart 2 "0" (String_num (option_map (fun x => rem x 60) clamped)) in
    String.append h (String ":" m).

End Planner.

(* ===================================================================== *)
(** ** The viewport window                                                *)
(* ===================================================================== *)

Module Virtual.

Import JS.

Record VirtualItem := {
  index : Z;
  start : Q;
  end_ : Q;
  size : Q;
}.

Record VirtualizationConfig := {
  itemHeight : Q;
  containerHeight : Q;
  overscan : option Z;       (* default 5 *)
  threshold : option Z;      (* default 50 *)
}.

Definition itemAt (itemHeight : Q) (i : Z) : VirtualItem :=
  {| index := i;
     start := inject_Z i * itemHeight;
     end_ := inject_Z (i + 1) * itemHeight;
     size := itemHeight |}.

(** The indices a loop [for (i = lo; i <= hi; i++)] visits. *)
Definition loopRange (lo hi : Z) : list Z :=
  List.map (fun k => lo + Z.of_nat k) (seq 0 (Z.to_nat (hi - lo + 1))).

Definition startIndex (itemHeight scrollOffset : Q) (overscan' : Z) : Z :=
  Z.max 0 (Math_floor (scrollOffset / itemHeight) - overscan').

Definition endIndex (n : nat) (itemHeight containerHeight scrollOffset : Q)
    (overscan' : Z) : Z :=
  Z.min (Z.of_nat n - 1)
    (Math_ceil ((scrollOffset + containerHeight) / itemHeight) + overscan').

(** The memoized [virtualItems] of [useVirtualization], for the current
    [scrollOffset] state. *)
Definition useVirtualization {T : Type} (items : list T)
    (config : VirtualizationConfig) (scrollOffset : Q) : list VirtualItem :=
  let overscan' := default 5 (overscan config) in
  let threshold' := default 50 (threshold config) in
  let n := List.length items in
  let shouldVirtualize := threshold' <? Z.of_nat n in
  if negb shouldVirtualize then
    List.map (fun i => itemAt (itemHeight config) (Z.of_nat i)) (seq 0 n)
  else
    List.map (itemAt (itemHeight config))
      (loopRange
         (startIndex (itemHeight config) scrollOffset overscan')
         (endIndex n (itemHeight config) (containerHeight config)
            scrollOffset overscan')).

Definition totalHeight {T : Type} (items : list T)
    (config : VirtualizationConfig) : Q :=
  inject_Z (Z.of_nat (List.length items)) * itemHeight config.

(** The closed pixel span of item [i] meets the closed viewport
    [[scrollOffset, scrollOffset + containerHeight]]. *)
Definition spanMeetsViewport (h c s : Q) (i : Z) : Prop :=
  (inject_Z i * h <= s + c)%Q /\ (s <= inject_Z (i + 1) * h)%Q.

End Virtual.

(* ===================================================================== *)
(** ** The plan store                                                     *)
(* ===================================================================== *)

Module Persistence.

Inductive Theme := lazy | adventurous | family.

(** A [Date], as milliseconds since the epoch; its ISO text in the
    localStorage blob is not modelled apart. *)
Definition Date : Type := Z.

Record Metadata := {
  tags : option (list string);
  notes : option string;
  isTemplate : option bool;
}.

Record WeekendPlan := {
  id : string;
  theme : Theme;
  activities : list Schedule.WeekendActivity;
  createdAt : Date;
  updatedAt : Date;
  version : Z;
  metadata : option Metadata;
}.

(** [Partial<WeekendPlan>]: the fields a patch carries. *)
Record PlanPatch := {
  u_id : option string;
  u_theme : option Theme;
  u_activities : option (list Schedule.WeekendActivity);
  u_createdAt : option Date;
  u_updatedAt : option Date;
  u_version : option Z;
  u_metadata : option Metadata;
}.

Definition emptyPatch : PlanPatch :=
  {| u_id := None; u_theme := None; u_activities := None;
     u_createdAt := None; u_updatedAt := None; u_version := None;
     u_metadata := None |}.

(** The object spread [{ ...plan, ...updates }]. *)
Definition spread (plan : WeekendPlan) (updates : PlanPatch) : WeekendPlan :=
  {| id := default (id plan) (u_id updates);
     theme := default (theme plan) (u_theme updates);
     activities := default (activities plan) (u_activities updates);
     createdAt := default (createdAt plan) (u_createdAt updates);
     updatedAt := default (updatedAt plan) (u_updatedAt updates);
     version := default (version plan) (u_version updates);
     metadata :=
       match u_metadata updates with
       | Some m => Some m
       | None => metadata plan
       end |}.

Definition withUpdatedAt (now : Date) (p : WeekendPlan) : WeekendPlan :=
  {| id := id p; theme := theme p; activities := activities p;
     createdAt := createdAt p; updatedAt := now; version := version p;
     metadata := metadata p |}.

Definition withVersion (v : Z) (p : WeekendPlan) : WeekendPlan :=
  {| id := id p; theme := theme p; activities := activities p;
     createdAt := createdAt p; updatedAt := updatedAt p; version := v;
     metadata := metadata p |}.

Inductive Result :=
| Resolved
| Rejected (message : string).

(** *** The localStorage backend *)

(** The storage holds one JSON blob per key; a blob is modelled by the
    plan it parses to. *)
Definition planKey (planId : string) : string :=
  String.append "weekendly.plan." planId.

Definition updatePlanInLocalStorage (now : Date) (planId : string)
    (updates : PlanPatch) (storage : gmap string WeekendPlan)
    : Result * gmap string WeekendPlan :=
  match storage !! planKey planId with
  | None => (Rejected "Plan not found", storage)
  | Some plan =>
      let updatedPlan := withUpdatedAt now (spread plan updates) in
      (Resolved, <[planKey planId := updatedPlan]> storage)
  end.

(** *** The IndexedDB backend *)

(** A row of the [activities] store: the activity and its [planId]. *)
Record ActivityRow := {
  row_activity : Schedule.WeekendActivity;
  row_planId : string;
}.

Record Database := {
  plansStore : gmap string WeekendPlan;        (* keyPath: id *)
  activitiesStore : gmap string ActivityRow;   (* keyPath: id *)
}.

(** [activitiesStore.add] for each activity in turn; [add] fails on a key
    that is present, which is [None] here. *)
Fixpoint addActivities (acts : list Schedule.WeekendActivity)
    (planId : string) (store : gmap string ActivityRow)
    : option (gmap string ActivityRow) :=
  match acts with
  | [] => Some store
  | a :: rest =>
      match store !! Schedule.id a with
      | Some _ => None
      | None =>
          addActivities rest planId
            (<[Schedule.id a :=
                 {| row_activity := a; row_planId := planId |}]> store)
      end
  end.

(** The cursor over the [planId] index deletes every row of the plan. *)
Definition deleteActivitiesOf (planId : string)
    (store : gmap string ActivityRow) : gmap string ActivityRow :=
  filter (fun kv => row_planId (snd kv) <> planId) store.

(** One read-write transaction over both stores.  A failing [add] is an
    unhandled request error: the transaction aborts and the database is
    left as it was, although the promise has been resolved by then. *)
Definition updatePlanInIndexedDB (now : Date) (planId : string)
    (updates : PlanPatch) (db : Database) : Result * Database :=
  match plansStore db !! planId with
  | None => (Rejected "Plan not found", db)
  | Some existingPlan =>
      let updatedPlan :=
        withVersion (version existingPlan + 1)
          (withUpdatedAt now (spread existingPlan updates)) in
      let plans' := <[id updatedPlan := updatedPlan]> (plansStore db) in
      match u_activities updates with
      | Some acts =>
          match addActivities acts planId
                  (deleteActivitiesOf planId (activitiesStore db)) with
          | Some store' =>
              (Resolved, {| plansStore := plans'; activitiesStore := store' |})
          | None => (Resolved, db)
          end
      | None =>
          (Resolved,
           {| plansStore := plans'; activitiesStore := activitiesStore db |})
      end
  end.

(** The manager: [db] is [None] while IndexedDB is absent or not open. *)
Record Manager := {
  db : option Database;
  localStorage : gmap string WeekendPlan;
}.

Definition updatePlan (now : Date) (planId : string) (updates : PlanPatch)
    (m : Manager) : Result * Manager :=
  match db m with
  | Some d =>
      let '(r, d') := updatePlanInIndexedDB now planId updates d in
      (r, {| db := Some d'; localStorage := localStorage m |})
  | None =>
      let '(r, s') := updatePlanInLocalStorage now planId updates (localStorage m) in
      (r, {| db := None; localStorage := s' |})
  end.

(** [getPlan]: the stored plan of an id, on the backend in use. *)
Definition getPlan (planId : string) (m : Manager) : option WeekendPlan :=
  match db m with
  | Some d => plansStore d !! planId
  | None => localStorage m !! planKey planId
  end.

End Persistence.

(* ===================================================================== *)
(** ** Facts about the JavaScript fragment                                *)
(* ===================================================================== *)

Module JSFacts.

Import JS.

Definition isDecimalDigit (d : Z) : Prop := 0 <= d <= 9.

Lemma digit_cases (d : Z) :
  isDecimalDigit d ->
  d = 0 \/ d = 1 \/ d = 2 \/ d = 3 \/ d = 4 \/ d = 5 \/ d = 6 \/ d = 7
  \/ d = 8 \/ d = 9.
Proof. unfold isDecimalDigit. lia. Qed.

Ltac each_digit H :=
  apply digit_cases in H;
  repeat (destruct H as [H | H]); subst.

Lemma isDigit_digitChar (d : Z) :
  isDecimalDigit d -> isDigit (digitChar d) = true.
Proof. intros H. each_digit H; reflexivity. Qed.

Lemma digitValue_digitChar (d : Z) :
  isDecimalDigit d -> digitValue (digitChar d) = d.
Proof. intros H. each_digit H; reflexivity. Qed.

Lemma digitChar_not_colon (d : Z) :
  isDecimalDigit d -> Ascii.eqb (digitChar d) ":" = false.
Proof. intros H. each_digit H; reflexivity. Qed.

Lemma digitChar_not_space (d : Z) :
  isDecimalDigit d -> isWhiteSpace (digitChar d) = false.
Proof. intros H. each_digit H; reflexivity. Qed.

(** *** Printing and reading back a natural number *)

Definition step (acc d : Z) : Z := 10 * acc + d.

Lemma decDigits_value (fuel : nat) :
  forall n acc,
    0 <= n < 2 ^ Z.of_nat fuel ->
    fold_left step (decDigits fuel n acc) 0 = fold_left step acc n.
Proof.
  induction fuel as [| f IH]; intros n acc Hn.
  - simpl in *. assert (n = 0) by lia. now subst.
  - cbn [decDigits]. destruct (Z.ltb_spec n 10) as [Hlt | Hge].
    + reflexivity.
    + rewrite IH.
      * cbn [fold_left]. unfold step at 2.
        f_equal. pose proof (Z.div_mod n 10). lia.
      * rewrite Nat2Z.inj_succ, Z.pow_succ_r in Hn by lia.
        split; [apply Z.div_pos; lia |].
        apply Z.div_lt_upper_bound; lia.
Qed.

Lemma decDigits_digits (fuel : nat) :
  forall n acc,
    0 <= n -> Forall isDecimalDigit acc ->
    Forall isDecimalDigit (decDigits fuel n acc).
Proof.
  induction fuel as [| f IH]; intros n acc Hn Hacc; cbn [decDigits].
  - assumption.
  - destruct (Z.ltb_spec n 10).
    + constructor; [unfold isDecimalDigit; lia | assumption].
    + apply IH; [apply Z.div_pos; lia |].
      constructor; [| assumption].
      unfold isDecimalDigit. pose proof (Z.mod_pos_bound n 10). lia.
Qed.

Lemma decDigits_nonempty (fuel : nat) :
  forall n acc, decDigits (S fuel) n acc <> [].
Proof.
  induction fuel as [| f IH]; intros n acc.
  - cbn. destruct (n <? 10); discriminate.
  - change (decDigits (S (S f)) n acc)
      with (if n <? 10 then n :: acc
            else decDigits (S f) (n / 10) (n mod 10 :: acc)).
    destruct (n <? 10); [discriminate | apply IH].
Qed.

Lemma digitsFuel_enough (n : Z) :
  0 <= n -> 0 <= n < 2 ^ Z.of_nat (digitsFuel n).
Proof.
  intros Hn. split; [assumption |]. unfold digitsFuel.
  rewrite Nat2Z.inj_succ, Z2Nat.id by apply Z.log2_nonneg.
  destruct (Z.eq_dec n 0) as [-> | Hnz]; [reflexivity |].
  apply Z.log2_spec. lia.
Qed.

(** The digits [String(n)] prints for [0 <= n]. *)
Definition digitsOf (n : Z) : list Z := decDigits (digitsFuel n) n [].

Lemma String_Z_nonneg (n : Z) :
  0 <= n -> String_Z n = digitString (digitsOf n).
Proof.
  intros Hn. unfold String_Z. destruct (Z.ltb_spec n 0); [lia | reflexivity].
Qed.

Lemma digitsOf_value (n : Z) : 0 <= n -> digitsValue (digitsOf n) = n.
Proof.
  intros Hn. unfold digitsValue, digitsOf.
  apply (decDigits_value (digitsFuel n) n []), digitsFuel_enough, Hn.
Qed.

Lemma digitsOf_digits (n : Z) : 0 <= n -> Forall isDecimalDigit (digitsOf n).
Proof. intros Hn. apply decDigits_digits; [assumption | constructor]. Qed.

Lemma digitsOf_nonempty (n : Z) : digitsOf n <> [].
Proof. apply decDigits_nonempty. Qed.

(** *** Reading a digit string *)

Lemma digitString_cons (d : Z) (ds : list Z) :
  digitString (d :: ds) = String (digitChar d) (digitString ds).
Proof. reflexivity. Qed.

Lemma digitString_app (xs ys : list Z) :
  digitString (xs ++ ys) = String.append (digitString xs) (digitString ys).
Proof.
  induction xs as [| x xs IH]; [reflexivity |].
  cbn [app]. rewrite !digitString_cons, IH. reflexivity.
Qed.

Lemma takeDigits_digitString (ds : list Z) :
  Forall isDecimalDigit ds -> takeDigits (digitString ds) = ds.
Proof.
  induction 1 as [| d ds Hd _ IH]; [reflexivity |].
  rewrite digitString_cons. cbn [takeDigits].
  rewrite isDigit_digitChar, digitValue_digitChar, IH by assumption.
  reflexivity.
Qed.

Lemma allDigits_digitString (ds : list Z) :
  Forall isDecimalDigit ds -> allDigits (digitString ds) = true.
Proof.
  induction 1 as [| d ds Hd _ IH]; [reflexivity |].
  rewrite digitString_cons. cbn [allDigits].
  now rewrite isDigit_digitChar, IH.
Qed.

Lemma trimStart_digitString (ds : list Z) :
  Forall isDecimalDigit ds -> trimStart (digitString ds) = digitString ds.
Proof.
  destruct 1 as [| d ds Hd _]; [reflexivity |].
  rewrite digitString_cons. cbn [trimStart].
  now rewrite digitChar_not_space.
Qed.

Lemma trimEnd_digitString (ds : list Z) :
  Forall isDecimalDigit ds -> trimEnd (digitString ds) = digitString ds.
Proof.
  induction 1 as [| d ds Hd _ IH]; [reflexivity |].
  rewrite digitString_cons. cbn [trimEnd]. rewrite IH.
  destruct (digitString ds); [| reflexivity].
  now rewrite digitChar_not_space.
Qed.

Lemma parseInt_digitString (ds : list Z) :
  Forall isDecimalDigit ds -> ds <> [] ->
  parseInt (digitString ds) = Some (digitsValue ds).
Proof.
  intros Hds Hne. unfold parseInt.
  rewrite trimStart_digitString by assumption.
  destruct ds as [| d ds]; [congruence |].
  assert (Hd : isDecimalDigit d) by (now inversion Hds).
  assert (Hsign :
    match digitString (d :: ds) with
    | String "-"%char r => (-1, r)
    | String "+"%char r => (1, r)
    | _ => (1, digitString (d :: ds))
    end = (1, digitString (d :: ds))).
  { rewrite digitString_cons. each_digit Hd; reflexivity. }
  rewrite Hsign, takeDigits_digitString by assumption.
  cbn [isNil]. f_equal. lia.
Qed.

Lemma Number_digitString (ds : list Z) :
  Forall isDecimalDigit ds -> ds <> [] ->
  Number (digitString ds) = Some (digitsValue ds).
Proof.
  intros Hds Hne. unfold Number, trim.
  rewrite trimStart_digitString, trimEnd_digitString by assumption.
  destruct ds as [| d ds]; [congruence |].
  assert (Hd : isDecimalDigit d) by (now inversion Hds).
  pose proof (allDigits_digitString _ Hds) as Hall.
  pose proof (takeDigits_digitString _ Hds) as Htake.
  rewrite digitString_cons in *.
  each_digit Hd; cbv beta iota delta [digitChar Z.to_nat Pos.to_nat Nat.add
    Pos.iter_op ascii_of_nat ascii_of_pos Ascii.shift ascii_of_N N.of_nat
    Pos.of_succ_nat Pos.succ zero one] in *;
    cbn -[allDigits takeDigits digitsValue] in *;
    rewrite ?Hall, ?Htake; reflexivity.
Qed.

(** Leading zeros do not change the value. *)
Lemma digitsValue_zeros (k : nat) (ds : list Z) :
  digitsValue (repeat 0 k ++ ds) = digitsValue ds.
Proof.
  unfold digitsValue. rewrite fold_left_app. f_equal.
  induction k as [| k IH]; [reflexivity | exact IH].
Qed.

Lemma repeatChar_zeros (k : nat) :
  repeatChar "0" k = digitString (repeat 0 k).
Proof.
  induction k as [| k IH]; [reflexivity |].
  cbn [repeatChar repeat]. rewrite digitString_cons, IH. reflexivity.
Qed.

Lemma Forall_digit_zeros (k : nat) : Forall isDecimalDigit (repeat 0 k).
Proof.
  induction k; constructor; [unfold isDecimalDigit; lia | assumption].
Qed.

(** [String(n).padStart(2, "0")] is a digit string that reads back as
    [n]. *)
Lemma padded_digits (n : Z) :
  0 <= n ->
  exists ds,
    padStart 2 "0" (String_Z n) = digitString ds
    /\ Forall isDecimalDigit ds /\ ds <> [] /\ digitsValue ds = n.
Proof.
  intros Hn. unfold padStart. rewrite String_Z_nonneg by assumption.
  set (k := (2 - String.length (digitString (digitsOf n)))%nat).
  exists (repeat 0 k ++ digitsOf n).
  rewrite repeatChar_zeros, digitString_app. split; [reflexivity |].
  split.
  - apply Forall_app; split; [apply Forall_digit_zeros | now apply digitsOf_digits].
  - split.
    + pose proof (digitsOf_nonempty n). destruct (repeat 0 k); [assumption | discriminate].
    + rewrite digitsValue_zeros. now apply digitsOf_value.
Qed.

(** *** Splitting at the colon *)

Lemma append_cons (c : ascii) (s t : string) :
  String.append (String c s) t = String c (String.append s t).
Proof. reflexivity. Qed.

Lemma split_digitString (ds : list Z) :
  Forall isDecimalDigit ds -> split ":" (digitString ds) = [digitString ds].
Proof.
  induction 1 as [| d ds Hd _ IH]; [reflexivity |].
  rewrite digitString_cons. cbn [split].
  now rewrite digitChar_not_colon, IH.
Qed.

Lemma split_digits_colon (xs : list Z) (rest : string) :
  Forall isDecimalDigit xs ->
  split ":" (String.append (digitString xs) (String ":" rest))
  = digitString xs :: split ":" rest.
Proof.
  induction 1 as [| d ds Hd _ IH]; [reflexivity |].
  rewrite digitString_cons, append_cons. cbn [split].
  now rewrite digitChar_not_colon, IH.
Qed.

End JSFacts.

(* ===================================================================== *)
(** ** Facts about the schedule component                                 *)
(* ===================================================================== *)

Module ScheduleFacts.

Import JS.
Import JSFacts.
Import Schedule.

(** *** Time texts *)

Lemma floor_div_60 (t : Z) : Math_floor (inject_Z t / 60) = t / 60.
Proof.
  unfold Math_floor, Qdiv, Qmult, Qinv, inject_Z, Qfloor. simpl.
  now rewrite Z.mul_1_r.
Qed.

Lemma toTimeString_unfold (t : Z) :
  toTimeString t
  = String.append (padStart 2 "0" (String_Z (t / 60)))
      (String ":" (padStart 2 "0" (String_Z (Z.rem t 60)))).
Proof. unfold toTimeString, rem. now rewrite floor_div_60. Qed.

(** A time text printed from a minute count from 0 to
    [Number.MAX_SAFE_INTEGER] reads back as that count. *)
Lemma toMinutes_toTimeString (t : Z) :
  0 <= t <= MAX_SAFE_INTEGER -> toMinutes (toTimeString t) = Some t.
Proof.
  intros [Ht _]. rewrite toTimeString_unfold.
  assert (Hh : 0 <= t / 60) by (apply Z.div_pos; lia).
  assert (Hm : 0 <= Z.rem t 60) by (apply Z.rem_nonneg; lia).
  destruct (padded_digits _ Hh) as (dh & -> & Hdh & Hneh & Hvh).
  destruct (padded_digits _ Hm) as (dm & -> & Hdm & Hnem & Hvm).
  unfold toMinutes.
  rewrite split_digits_colon, split_digitString by assumption.
  cbn [List.map nth nth_error].
  rewrite !parseInt_digitString by assumption.
  cbn [mul add orZero]. f_equal. rewrite Hvh, Hvm.
  rewrite Z.rem_mod_nonneg by lia.
  pose proof (Z.div_mod t 60). lia.
Qed.

(** On a number [toTimeString_num] is [toTimeString]; on NaN it prints
    NaN twice. *)
Lemma toTimeString_num_number (t : Z) :
  toTimeString_num (Some t) = toTimeString t.
Proof. reflexivity. Qed.

Lemma toTimeString_num_NaN : toTimeString_num NaN = "NaN:NaN"%string.
Proof. reflexivity. Qed.

(** *** Conflicts *)

(** The half-open intervals [[start, start + durationMins)] of [c] and [a]
    overlap: both starts are times, both durations are numbers, and each
    start lies before the end of the other. *)
Definition overlap (c a : WeekendActivity) : Prop :=
  exists cStart aStart cDur aDur,
    toMinutes (start c) = Some cStart
    /\ toMinutes (start a) = Some aStart
    /\ durationMins c = Some cDur
    /\ durationMins a = Some aDur
    /\ cStart < aStart + aDur
    /\ aStart < cStart + cDur.


Lemma overlapsWith_spec (c a : WeekendActivity) :
  overlapsWith (toMinutes (start c))
    (add (toMinutes (start c)) (durationMins c)) a = true
  <-> overlap c a.
Proof.
  unfold overlapsWith, overlap.
  destruct (toMinutes (start c)) as [cs |], (toMinutes (start a)) as [s |],
    (durationMins c) as [cd |], (durationMins a) as [ad |];
    cbn [add lt]; rewrite ?andb_true_iff, ?Z.ltb_lt;
    try (split;
         [intros [H1 H2]; discriminate
         | intros (? & ? & ? & ? & E1 & E2 & E3 & E4 & _); discriminate]).
  split.
  - intros [H1 H2]. exists cs, s, cd, ad. auto 7.
  - intros (cs' & s' & cd' & ad' & E1 & E2 & E3 & E4 & H1 & H2).
    injection E1 as <-. injection E2 as <-.
    injection E3 as <-. injection E4 as <-. auto.
Qed.

Lemma hasConflict_spec (acts : list WeekendActivity) (c : WeekendActivity)
    (ex : option string) :
  hasConflict acts c ex = true
  <-> exists a, In a acts /\ day a = day c /\ Some (id a) <> ex /\ overlap c a.
Proof.
  unfold hasConflict. rewrite existsb_exists. split.
  - intros (a & Hin & Hov). apply filter_In in Hin as [Hin Hsel].
    apply andb_true_iff in Hsel as [Hday Hid].
    apply bool_decide_eq_true in Hday, Hid.
    exists a. repeat split; try assumption. now apply overlapsWith_spec.
  - intros (a & Hin & Hday & Hid & Hov). exists a. split.
    + apply filter_In. split; [assumption |].
      apply andb_true_iff. split; now apply bool_decide_eq_true.
    + now apply overlapsWith_spec.
Qed.


Lemma hasConflict_false_iff (acts : list WeekendActivity)
    (c : WeekendActivity) (ex : option string) :
  hasConflict acts c ex = false
  <-> forall a, In a acts -> day a = day c -> Some (id a) <> ex -> ~ overlap c a.
Proof.
  rewrite <- not_true_iff_false, hasConflict_spec. split.
  - intros Hno a Hin Hday Hid Hov. apply Hno. exists a. auto.
  - intros Hall (a & Hin & Hday & Hid & Hov). exact (Hall a Hin Hday Hid Hov).
Qed.


(** The same-day activities of [acts] are pairwise disjoint as half-open
    intervals. *)
Definition pairwiseDisjoint (acts : list WeekendActivity) : Prop :=
  forall a b,
    In a acts -> In b acts -> a <> b -> day a = day b -> ~ overlap a b.

(** C4.  In a list whose same-day activities are pairwise disjoint, an
    activity never conflicts with the list when its own id is excluded:
    moving it to the slot it already has is accepted. *)
Theorem hasConflict_excludes_self (acts : list WeekendActivity)
    (a : WeekendActivity) :
  pairwiseDisjoint acts -> In a acts ->
  hasConflict acts a (Some (id a)) = false.
Proof.
  intros Hdis Hin. apply hasConflict_false_iff.
  intros b Hb Hday Hid. apply Hdis; try assumption; [| now symmetry].
  intros ->. now apply Hid.
Qed.

(** *** Sample activities *)

Definition activityAt (i t : string) (d : DayKey) (s : string) (mins : Z)
    : WeekendActivity :=
  {| id := i; title := t; category := other; day := d; start := s;
     durationMins := Some mins; mood := None; notes := None |}.

Definition brunch : WeekendActivity :=
  activityAt "act_1" "Brunch" saturday "09:30" 60.

Definition museum : WeekendActivity :=
  activityAt "act_2" "Museum" saturday "11:00" 60.

Definition lunch : WeekendActivity :=
  activityAt "act_3" "Lunch" saturday "12:00" 60.

Definition hike : WeekendActivity :=
  activityAt "act_4" "Hike" saturday "10:00" 90.

(** The scenarios of the specification: a hike at 10:00 for 90 minutes
    collides with an activity from 09:30 to 10:30; a lunch at 12:00 is
    accepted next to an activity that ends at 12:00. *)
Example hike_conflicts : hasConflict [brunch] hike None = true.
Proof. reflexivity. Qed.

Example lunch_fits : hasConflict [brunch; museum] lunch None = false.
Proof. reflexivity. Qed.

Lemma sample_day_disjoint : pairwiseDisjoint [brunch; museum; lunch].
Proof.
  intros a b Ha Hb Hne _ (s1 & s2 & d1 & d2 & E1 & E2 & D1 & D2 & H1 & H2).
  cbn [In] in Ha, Hb.
  destruct Ha as [<- | [<- | [<- | []]]], Hb as [<- | [<- | [<- | []]]];
    try (now apply Hne);
    vm_compute in E1, E2, D1, D2; injection E1 as <-; injection E2 as <-;
    injection D1 as <-; injection D2 as <-; lia.
Qed.

Lemma hasConflict_excludes_self_witness :
  hasConflict [brunch; museum; lunch] museum (Some (id museum)) = false.
Proof.
  apply hasConflict_excludes_self.
  - exact sample_day_disjoint.
  - cbn [In]. auto.
Defined.

(** *** Rejected requests *)

Section Handlers.

Variables startHour endHour : Z.

Lemma handleDrop_move (e : DragEvent) (day' : DayKey) (newId : string)
    (prev : list WeekendActivity) (mins : Z) (found : WeekendActivity) :
  getMinutesFromElement startHour endHour (clientY e) (currentTarget e)
    = Some mins ->
  internalId e <> EmptyString ->
  List.find (fun a => String.eqb (id a) (internalId e)) prev = Some found ->
  handleDrop startHour endHour e day' newId prev
  = let updated := movedActivity startHour endHour found day' mins in
    if hasConflict prev updated (Some (internalId e))
    then (prev, Some SchedulingConflict)
    else (replaceById (internalId e) updated prev, None).
Proof.
  intros Hm Hid Hf. unfold handleDrop. rewrite Hm.
  apply String.eqb_neq in Hid. rewrite Hid. cbn [negb]. now rewrite Hf.
Qed.

Lemma handleDrop_insert (e : DragEvent) (day' : DayKey) (newId : string)
    (prev : list WeekendActivity) (mins : Z) (payload : Payload) :
  getMinutesFromElement startHour endHour (clientY e) (currentTarget e)
    = Some mins ->
  internalId e = EmptyString ->
  external e = Parsed payload ->
  truthyString (p_title payload) = true ->
  isSome (p_category payload) = true ->
  truthyNumber (p_durationMins payload) = true ->
  handleDrop startHour endHour e day' newId prev
  = let newAct := droppedActivity startHour endHour newId payload day' mins in
    if hasConflict prev newAct None
    then (prev, Some SchedulingConflict)
    else (prev ++ [newAct], Some (AddedToSchedule (title newAct) day')).
Proof.
  intros Hm Hid He Ht Hc Hd. unfold handleDrop.
  rewrite Hm, Hid, He, Ht, Hc, Hd. reflexivity.
Qed.

(** Whatever the request, a drop that ends in the conflict toast leaves
    the list as it was. *)
Lemma handleDrop_conflict_unchanged (e : DragEvent) (day' : DayKey)
    (newId : string) (prev : list WeekendActivity) :
  snd (handleDrop startHour endHour e day' newId prev) = Some SchedulingConflict ->
  fst (handleDrop startHour endHour e day' newId prev) = prev.
Proof.
  unfold handleDrop.
  destruct (getMinutesFromElement _ _ _ _) as [mins |]; [| reflexivity].
  destruct (negb _).
  - destruct (List.find _ prev) as [found |]; [| reflexivity].
    destruct (hasConflict _ _ _); [reflexivity | discriminate].
  - destruct (external e) as [| | payload]; try reflexivity.
    destruct (_ || _); [reflexivity |].
    destruct (hasConflict _ _ _); [reflexivity | discriminate].
Qed.

End Handlers.

Lemma saveEdit_conflict_unchanged (draft : option WeekendActivity)
    (prev : list WeekendActivity) :
  snd (saveEdit draft prev) = Some SchedulingConflict ->
  fst (saveEdit draft prev) = prev.
Proof.
  unfold saveEdit. destruct draft as [d |]; [| reflexivity].
  destruct (hasConflict _ _ _); [reflexivity | discriminate].
Qed.

(** C2.  A placement request that [hasConflict] rejects leaves the activity
    list exactly as it was.  For a drag move, an external drop and an edit:
    when the check on the candidate the handler builds answers true, the
    handler returns the previous list with the conflict toast; and any run
    of a handler that ends in the conflict toast returns the previous
    list. *)
Theorem conflict_leaves_list_unchanged (startHour endHour : Z) :
  (forall e day' newId prev mins found,
      getMinutesFromElement startHour endHour (clientY e) (currentTarget e)
        = Some mins ->
      internalId e <> EmptyString ->
      List.find (fun a => String.eqb (id a) (internalId e)) prev = Some found ->
      hasConflict prev (movedActivity startHour endHour found day' mins)
        (Some (internalId e)) = true ->
      handleDrop startHour endHour e day' newId prev
      = (prev, Some SchedulingConflict))
  /\ (forall e day' newId prev mins payload,
        getMinutesFromElement startHour endHour (clientY e) (currentTarget e)
          = Some mins ->
        internalId e = EmptyString ->
        external e = Parsed payload ->
        hasConflict prev
          (droppedActivity startHour endHour newId payload day' mins) None
          = true ->
        fst (handleDrop startHour endHour e day' newId prev) = prev)
  /\ (forall draft prev,
        hasConflict prev (cleanedDraft draft) (Some (id (cleanedDraft draft)))
          = true ->
        saveEdit (Some draft) prev = (prev, Some SchedulingConflict))
  /\ (forall e day' newId prev,
        snd (handleDrop startHour endHour e day' newId prev)
          = Some SchedulingConflict ->
        fst (handleDrop startHour endHour e day' newId prev) = prev)
  /\ (forall draft prev,
        snd (saveEdit draft prev) = Some SchedulingConflict ->
        fst (saveEdit draft prev) = prev).
Proof.
  repeat split.
  - intros e day' newId prev mins found Hm Hid Hf Hc.
    rewrite (handleDrop_move _ _ e day' newId prev mins found Hm Hid Hf).
    cbv zeta. now rewrite Hc.
  - intros e day' newId prev mins payload Hm Hid He Hc.
    unfold handleDrop. rewrite Hm, Hid, He. cbn [String.eqb negb].
    destruct (_ || _); [reflexivity |]. now rewrite Hc.
  - intros draft prev Hc. unfold saveEdit. now rewrite Hc.
  - apply handleDrop_conflict_unchanged.
  - apply saveEdit_conflict_unchanged.
Qed.

(** A pointer 100 pixels below the top of a track of 736 pixels, with the
    default day window from 5 to 23 hours, stands at 07:15. *)
Definition sampleTrack : DOMRect := {| top := 0; height := 736 |}.

Definition hikePayload : Payload :=
  {| p_title := Some "Hike"%string; p_category := Some outdoor;
     p_durationMins := Some 90%Q; p_mood := None; p_notes := None |}.

Definition hikeDrop : DragEvent :=
  {| clientY := 100; currentTarget := Some sampleTrack;
     internalId := EmptyString; external := Parsed hikePayload |}.

Definition breakfast : WeekendActivity :=
  activityAt "act_5" "Breakfast" saturday "07:00" 30.

Example hikeDrop_minutes :
  getMinutesFromElement 5 23 (clientY hikeDrop) (currentTarget hikeDrop)
  = Some 435.
Proof. reflexivity. Qed.

Example hikeDrop_accepted :
  handleDrop 5 23 hikeDrop saturday "act_9" [brunch]
  = ([brunch;
      {| id := "act_9"; title := "Hike"; category := outdoor; day := saturday;
         start := "07:15"; durationMins := Some 90; mood := None;
         notes := Some EmptyString |}],
     Some (AddedToSchedule "Hike" saturday)).
Proof. reflexivity. Qed.

(** *** Durations *)

(** [roundToStep] at the slot size yields a multiple of the slot, within
    half a slot of the request; a tie goes to the larger multiple. *)
Lemma roundToStep_slot (d : Q) :
  (exists k, roundToStep d MIN_SLOT_MINUTES = 15 * k)
  /\ (d - (15 # 2) < inject_Z (roundToStep d MIN_SLOT_MINUTES))%Q
  /\ (inject_Z (roundToStep d MIN_SLOT_MINUTES) <= d + (15 # 2))%Q.
Proof.
  unfold roundToStep, Math_round, MIN_SLOT_MINUTES.
  set (x := (d / inject_Z 15 + (1 # 2))%Q).
  pose proof (Qfloor_le x) as Hle. pose proof (Qlt_floor x) as Hlt.
  assert (Hx : (x * 15 == d + (15 # 2))%Q) by (unfold x; field).
  split; [exists (Qfloor x); lia |].
  rewrite inject_Z_mult. rewrite inject_Z_plus in Hlt.
  change (inject_Z 1) with 1%Q in Hlt. change (inject_Z 15) with 15%Q in *.
  split; lra.
Qed.

(** The duration an insert or an edit commits: a multiple of the slot, at
    least one slot, and the rounded request whenever that is a slot or
    more. *)
Lemma slotDuration (d : Q) :
  let dur := Z.max MIN_SLOT_MINUTES (roundToStep d MIN_SLOT_MINUTES) in
  (exists k, dur = 15 * k) /\ 15 <= dur
  /\ (15 <= roundToStep d MIN_SLOT_MINUTES ->
      dur = roundToStep d MIN_SLOT_MINUTES).
Proof.
  cbv zeta. destruct (roundToStep_slot d) as ((k & Hk) & _).
  unfold MIN_SLOT_MINUTES in *. rewrite Hk. repeat split; try lia.
  destruct (Z.max_spec 15 (15 * k)) as [[_ ->] | [_ ->]];
    [exists k | exists 1]; lia.
Qed.

(** The duration an edit commits for a draft whose duration is a number. *)
Lemma cleanedDraft_duration (draft : WeekendActivity) (d : Z) :
  durationMins draft = Some d ->
  durationMins (cleanedDraft draft)
  = Some (Z.max MIN_SLOT_MINUTES (roundToStep (inject_Z d) MIN_SLOT_MINUTES)).
Proof. intros H. cbn [cleanedDraft durationMins]. now rewrite H. Qed.

(** A draft whose duration is NaN keeps it: [Math.max(15, NaN)] is NaN. *)
Lemma cleanedDraft_duration_NaN (draft : WeekendActivity) :
  durationMins draft = NaN -> durationMins (cleanedDraft draft) = NaN.
Proof. intros H. cbn [cleanedDraft durationMins]. now rewrite H. Qed.

(** A candidate whose duration is NaN conflicts with nothing: its end is
    NaN, and every comparison with NaN is false. *)
Lemma hasConflict_NaN_duration (acts : list WeekendActivity)
    (c : WeekendActivity) (ex : option string) :
  durationMins c = NaN -> hasConflict acts c ex = false.
Proof.
  intros H. apply not_true_iff_false. intros Hc.
  apply hasConflict_spec in Hc as (a & _ & _ & _ & Hov).
  destruct Hov as (? & ? & cd & ? & _ & _ & E & _).
  rewrite H in E. discriminate E.
Qed.

(** *** Titles *)

Definition titled (acts : list WeekendActivity) : Prop :=
  Forall (fun a => title a <> EmptyString) acts.

Lemma cleanedDraft_title (draft : WeekendActivity) :
  title (cleanedDraft draft) <> EmptyString
  /\ (trim (title draft) = EmptyString ->
      title (cleanedDraft draft) = "Untitled"%string)
  /\ (trim (title draft) <> EmptyString ->
      title (cleanedDraft draft) = trim (title draft)).
Proof.
  cbn [cleanedDraft title].
  destruct (String.eqb_spec (trim (title draft)) EmptyString) as [-> | Hne].
  - repeat split; [discriminate | congruence].
  - repeat split; [assumption | congruence].
Qed.

Lemma replaceById_titled (target : string) (r : WeekendActivity)
    (prev : list WeekendActivity) :
  title r <> EmptyString -> titled prev -> titled (replaceById target r prev).
Proof.
  intros Hr Hprev. unfold titled, replaceById.
  induction Hprev as [| a l Ha _ IH]; cbn [List.map]; constructor.
  - now destruct (String.eqb (id a) target).
  - exact IH.
Qed.

Lemma find_titled (p : WeekendActivity -> bool) (prev : list WeekendActivity)
    (found : WeekendActivity) :
  titled prev -> List.find p prev = Some found -> title found <> EmptyString.
Proof.
  intros Hprev Hf. apply find_some in Hf as [Hin _].
  unfold titled in Hprev. rewrite Forall_forall in Hprev.
  apply Hprev. now apply list_elem_of_In.
Qed.

Lemma truthyString_nonempty (s : option string) :
  truthyString s = true -> default EmptyString s <> EmptyString.
Proof.
  destruct s as [t |]; [| discriminate]. cbn.
  intros H. apply negb_true_iff in H. now apply String.eqb_neq.
Qed.

(** C10.  No handler introduces an activity with an empty title.  An
    external drop whose payload has no title, or the empty one, is rejected
    as invalid and changes nothing; an edit stores ["Untitled"] where the
    title trims to the empty text; and a drop (insert or move), an edit and
    a removal each keep a list of titled activities titled. *)
Theorem titles_stay_nonempty (startHour endHour : Z) :
  (forall e day' newId prev mins payload,
      getMinutesFromElement startHour endHour (clientY e) (currentTarget e)
        = Some mins ->
      internalId e = EmptyString ->
      external e = Parsed payload ->
      p_title payload = None \/ p_title payload = Some EmptyString ->
      handleDrop startHour endHour e day' newId prev
      = (prev, Some InvalidActivity))
  /\ (forall draft,
        trim (title draft) = EmptyString ->
        title (cleanedDraft draft) = "Untitled"%string)
  /\ (forall e day' newId prev,
        titled prev ->
        titled (fst (handleDrop startHour endHour e day' newId prev)))
  /\ (forall draft prev, titled prev -> titled (fst (saveEdit draft prev)))
  /\ (forall target prev,
        titled prev -> titled (fst (removeActivity target prev))).
Proof.
  repeat split.
  - intros e day' newId prev mins payload Hm Hid He Ht.
    unfold handleDrop. rewrite Hm, Hid, He. cbn [String.eqb negb].
    destruct Ht as [-> | ->]; reflexivity.
  - intros draft. apply cleanedDraft_title.
  - intros e day' newId prev Hprev. unfold handleDrop.
    destruct (getMinutesFromElement _ _ _ _) as [mins |]; [| exact Hprev].
    destruct (negb _).
    + destruct (List.find _ prev) as [found |] eqn:Hf; [| exact Hprev].
      destruct (hasConflict _ _ _); [exact Hprev |]. cbn [fst].
      apply replaceById_titled; [| exact Hprev].
      cbn [movedActivity title]. exact (find_titled _ _ _ Hprev Hf).
    + destruct (external e) as [| | payload]; try exact Hprev.
      destruct (negb (truthyString (p_title payload))) eqn:Ht;
        [exact Hprev |].
      cbn [orb]. destruct (_ || _); [exact Hprev |].
      destruct (hasConflict _ _ _); [exact Hprev |]. cbn [fst].
      apply Forall_app. split; [exact Hprev |].
      constructor; [| constructor]. cbn [droppedActivity title].
      apply truthyString_nonempty. now apply negb_false_iff.
  - intros draft prev Hprev. unfold saveEdit.
    destruct draft as [d |]; [| exact Hprev].
    destruct (hasConflict _ _ _); [exact Hprev |]. cbn [fst].
    apply replaceById_titled; [apply cleanedDraft_title | exact Hprev].
  - intros target prev Hprev. unfold removeActivity, titled in *. cbn [fst].
    rewrite Forall_forall in *. intros a Ha. apply Hprev.
    apply list_elem_of_In in Ha. apply filter_In in Ha as [Ha _].
    now apply list_elem_of_In.
Qed.

(** *** The shape of a time text *)

(** Two decimal digits. *)
Definition twoDigits (n : Z) : string :=
  String (digitChar (n / 10)) (String (digitChar (n mod 10)) EmptyString).

(** The text [HH:MM] of an hour and a minute. *)
Definition timeText (h m : Z) : string :=
  String.append (twoDigits h) (String ":" (twoDigits m)).

Definition paddedAsTwoDigits (k : nat) : bool :=
  String.eqb (padStart 2 "0" (String_Z (Z.of_nat k))) (twoDigits (Z.of_nat k)).

Lemma padStart_twoDigits (n : Z) :
  0 <= n <= 99 -> padStart 2 "0" (String_Z n) = twoDigits n.
Proof.
  intros Hn.
  assert (Hall : forallb paddedAsTwoDigits (seq 0 100) = true)
    by (vm_compute; reflexivity).
  rewrite forallb_forall in Hall.
  specialize (Hall (Z.to_nat n)).
  unfold paddedAsTwoDigits in Hall. rewrite Z2Nat.id in Hall by lia.
  apply String.eqb_eq, Hall, in_seq. lia.
Qed.

Lemma twoDigits_value (n : Z) :
  0 <= n <= 99 -> parseInt (twoDigits n) = Some n /\ Number (twoDigits n) = Some n.
Proof.
  intros Hn.
  assert (Hd : Forall isDecimalDigit [n / 10; n mod 10]).
  { repeat constructor; unfold isDecimalDigit.
    - apply Z.div_pos; lia.
    - apply Z.lt_succ_r, Z.div_lt_upper_bound; lia.
    - apply Z.mod_pos_bound; lia.
    - pose proof (Z.mod_pos_bound n 10). lia. }
  change (twoDigits n) with (digitString [n / 10; n mod 10]).
  rewrite parseInt_digitString, Number_digitString by (assumption || discriminate).
  unfold digitsValue. cbn [fold_left]. pose proof (Z.div_mod n 10).
  split; f_equal; lia.
Qed.

(** [toTimeString] on the minutes of one day. *)
Lemma toTimeString_day (t : Z) :
  0 <= t <= 1439 ->
  toTimeString t = timeText (t / 60) (t mod 60)
  /\ 0 <= t / 60 <= 23 /\ 0 <= t mod 60 <= 59.
Proof.
  intros Ht.
  assert (Hh : 0 <= t / 60 <= 23).
  { split; [apply Z.div_pos; lia |].
    apply Z.lt_succ_r, Z.div_lt_upper_bound; lia. }
  assert (Hm : 0 <= t mod 60 <= 59) by (pose proof (Z.mod_pos_bound t 60); lia).
  split; [| split; assumption].
  rewrite toTimeString_unfold, Z.rem_mod_nonneg by lia.
  unfold timeText. now rewrite !padStart_twoDigits by lia.
Qed.

(** C7, as the code has it.  For a minute count of one day, from 0 to 1439,
    [toTimeString] returns the zero-padded text [HH:MM] of the hour
    [t / 60], between 00 and 23, and the minute [t mod 60], between 00 and
    59, and the text reads back as [t].  The function itself clamps
    nothing, so nothing is said about a count outside the day. *)
Theorem toTimeString_within_day (t : Z) :
  0 <= t <= 1439 ->
  exists h m,
    0 <= h <= 23 /\ 0 <= m <= 59 /\ t = 60 * h + m
    /\ toTimeString t = timeText h m
    /\ String.length (toTimeString t) = 5%nat
    /\ toMinutes (toTimeString t) = Some t.
Proof.
  intros Ht. destruct (toTimeString_day t Ht) as (E & Hh & Hm).
  exists (t / 60), (t mod 60). repeat split; try lia.
  - pose proof (Z.div_mod t 60). lia.
  - exact E.
  - now rewrite E.
  - apply toMinutes_toTimeString. unfold MAX_SAFE_INTEGER. lia.
Qed.

Lemma toTimeString_within_day_witness :
  exists h m,
    0 <= h <= 23 /\ 0 <= m <= 59 /\ 630 = 60 * h + m
    /\ toTimeString 630 = timeText h m
    /\ String.length (toTimeString 630) = 5%nat
    /\ toMinutes (toTimeString 630) = Some 630.
Proof. apply (toTimeString_within_day 630). lia. Defined.

Lemma timeText_hour (h m : Z) (c1 c2 : ascii) (rest : string) :
  timeText h m = String c1 (String c2 rest) ->
  digitChar (h / 10) = c1 /\ digitChar (h mod 10) = c2.
Proof. unfold timeText, twoDigits. cbn. intros H. now injection H. Qed.

(** C7, as stated, fails.  Nothing is clamped: 1440 minutes print as
    [24:00] and not as the text of 1439, and a negative count prints with
    minus signs; neither is a text with an hour from 00 to 23 and a minute
    from 00 to 59. *)
Lemma toTimeString_does_not_clamp :
  toTimeString 1440 = "24:00"%string
  /\ toTimeString (clamp 1440 0 1439) = "23:59"%string
  /\ toTimeString (-1) = "-1:-1"%string
  /\ ~ (forall t, exists h m,
          0 <= h <= 23 /\ 0 <= m <= 59 /\ toTimeString t = timeText h m).
Proof.
  repeat split; try reflexivity.
  intros H. destruct (H 1440) as (h & m & Hh & _ & E).
  change (toTimeString 1440) with "24:00"%string in E.
  symmetry in E. apply timeText_hour in E as [E1 E2].
  assert (Hc : h / 10 = 0 \/ h / 10 = 1 \/ h / 10 = 2).
  { assert (0 <= h / 10) by (apply Z.div_pos; lia).
    assert (h / 10 < 3) by (apply Z.div_lt_upper_bound; lia). lia. }
  destruct Hc as [Hc | [Hc | Hc]]; rewrite Hc in E1; try discriminate E1.
  assert (Hr : 0 <= h mod 10 <= 3).
  { pose proof (Z.div_mod h 10). pose proof (Z.mod_pos_bound h 10). lia. }
  assert (Hd : h mod 10 = 0 \/ h mod 10 = 1 \/ h mod 10 = 2 \/ h mod 10 = 3)
    by lia.
  destruct Hd as [Hd | [Hd | [Hd | Hd]]]; rewrite Hd in E2; discriminate E2.
Qed.

(** *** Normalizing an edited start *)

Lemma isDigit_inv (c : ascii) :
  isDigit c = true ->
  isDecimalDigit (digitValue c) /\ digitChar (digitValue c) = c.
Proof.
  destruct c as [b0 b1 b2 b3 b4 b5 b6 b7].
  destruct b0, b1, b2, b3, b4, b5, b6, b7; intros H;
    try discriminate H;
    (split; [unfold isDecimalDigit; vm_compute; split; discriminate
            | reflexivity]).
Qed.

Lemma digitsValue_nonneg (ds : list Z) :
  Forall isDecimalDigit ds -> 0 <= digitsValue ds.
Proof.
  intros Hds. unfold digitsValue.
  assert (H : forall acc, 0 <= acc ->
                0 <= fold_left (fun a d => 10 * a + d) ds acc).
  { induction Hds as [| d ds Hd _ IH]; intros acc Hacc; cbn [fold_left].
    - exact Hacc.
    - apply IH. unfold isDecimalDigit in Hd. lia. }
  apply H. lia.
Qed.

(** A text of the time format: one or two digits, a colon, two digits. *)
Definition isTimeText (val : string) (hs ms : list Z) : Prop :=
  Forall isDecimalDigit hs /\ Forall isDecimalDigit ms
  /\ (List.length hs = 1%nat \/ List.length hs = 2%nat)
  /\ List.length ms = 2%nat
  /\ val = String.append (digitString hs) (String ":" (digitString ms)).

Lemma matchesTimeFormat_inv (val : string) :
  matchesTimeFormat val = true -> exists hs ms, isTimeText val hs ms.
Proof.
  unfold matchesTimeFormat. intros H.
  rewrite <- (string_of_list_ascii_of_string val). revert H.
  destruct (list_ascii_of_string val) as [| c1 [| c2 [| c3 [| c4 [| c5 [| c6 l]]]]]];
    intros H; try discriminate H.
  - apply andb_true_iff in H as [H Hd4].
    apply andb_true_iff in H as [H Hd3].
    apply andb_true_iff in H as [Hd1 Hd2].
    destruct (isDigit_inv c1) as [? <-]; [assumption |].
    destruct (isDigit_inv c3) as [? <-]; [assumption |].
    destruct (isDigit_inv c4) as [? <-]; [assumption |].
    match goal with E : Ascii.eqb c2 _ = true |- _ =>
      apply Ascii.eqb_eq in E; subst c2 end.
    exists [digitValue c1], [digitValue c3; digitValue c4].
    unfold isTimeText. repeat split; auto.
  - apply andb_true_iff in H as [H Hd5].
    apply andb_true_iff in H as [H Hd4].
    apply andb_true_iff in H as [H Hd3].
    apply andb_true_iff in H as [Hd1 Hd2].
    destruct (isDigit_inv c1) as [? <-]; [assumption |].
    destruct (isDigit_inv c2) as [? <-]; [assumption |].
    destruct (isDigit_inv c4) as [? <-]; [assumption |].
    destruct (isDigit_inv c5) as [? <-]; [assumption |].
    match goal with E : Ascii.eqb c3 _ = true |- _ =>
      apply Ascii.eqb_eq in E; subst c3 end.
    exists [digitValue c1; digitValue c2], [digitValue c4; digitValue c5].
    unfold isTimeText. repeat split; auto.
Qed.

Lemma isTimeText_matches (val : string) (hs ms : list Z) :
  isTimeText val hs ms -> matchesTimeFormat val = true.
Proof.
  intros (Hh & Hm & Hlh & Hlm & ->).
  destruct ms as [| m1 [| m2 [| ? ?]]]; try discriminate Hlm.
  inversion Hm as [| ? ? Hm1 Hm']; subst. inversion Hm' as [| ? ? Hm2 _]; subst.
  destruct Hlh as [Hlh | Hlh].
  - destruct hs as [| h1 [| ? ?]]; try discriminate Hlh.
    inversion Hh as [| ? ? Hh1 _]; subst.
    change (matchesTimeFormat _)
      with (isDigit (digitChar h1) && Ascii.eqb ":" ":"
            && isDigit (digitChar m1) && isDigit (digitChar m2)).
    now rewrite !isDigit_digitChar by assumption.
  - destruct hs as [| h1 [| h2 [| ? ?]]]; try discriminate Hlh.
    inversion Hh as [| ? ? Hh1 Hh']; subst. inversion Hh' as [| ? ? Hh2 _]; subst.
    change (matchesTimeFormat _)
      with (isDigit (digitChar h1) && isDigit (digitChar h2)
            && Ascii.eqb ":" ":"
            && isDigit (digitChar m1) && isDigit (digitChar m2)).
    now rewrite !isDigit_digitChar by assumption.
Qed.

Lemma digitsValue_two (ds : list Z) :
  Forall isDecimalDigit ds -> (List.length ds <= 2)%nat ->
  0 <= digitsValue ds <= 99.
Proof.
  intros Hds Hlen. unfold digitsValue.
  destruct ds as [| a [| b [| ? ?]]]; cbn in Hlen; try lia; cbn [fold_left].
  - lia.
  - inversion Hds; subst. unfold isDecimalDigit in *. lia.
  - inversion Hds as [| ? ? Ha Hb']; subst. inversion Hb'; subst.
    unfold isDecimalDigit in *. lia.
Qed.

Lemma clampNum_nonneg (v lim : Z) :
  0 <= v -> 0 <= lim ->
  clampNum (Some v) (Some 0) (Some lim) = Some (Z.min v lim).
Proof. intros Hv Hl. unfold clampNum. cbn. f_equal. lia. Qed.

(** [normalizeTime] on a text of the time format: the hour is cut to 23,
    the minute to 59, and both are printed with two digits. *)
Lemma normalizeTime_timeText (val : string) (hs ms : list Z) :
  isTimeText val hs ms ->
  normalizeTime val
  = timeText (Z.min (digitsValue hs) 23) (Z.min (digitsValue ms) 59).
Proof.
  intros Hval. unfold normalizeTime.
  rewrite (isTimeText_matches _ _ _ Hval). cbn [negb].
  destruct Hval as (Hh & Hm & Hlh & Hlm & ->).
  assert (Hneh : hs <> []) by (destruct hs; [destruct Hlh |]; discriminate).
  assert (Hnem : ms <> []) by (destruct ms; discriminate).
  rewrite split_digits_colon, split_digitString by assumption.
  cbn [List.map nth]. rewrite !Number_digitString by assumption.
  assert (Hvh : 0 <= digitsValue hs <= 99) by (apply digitsValue_two; [assumption | lia]).
  assert (Hvm : 0 <= digitsValue ms <= 99) by (apply digitsValue_two; [assumption | lia]).
  rewrite !clampNum_nonneg by lia. cbn [String_num].
  rewrite !padStart_twoDigits by lia. reflexivity.
Qed.

Lemma normalizeTime_default (val : string) :
  matchesTimeFormat val = false -> normalizeTime val = "08:00"%string.
Proof. intros H. unfold normalizeTime. now rewrite H. Qed.

(** Whatever the text, [normalizeTime] returns the text [HH:MM] of an hour
    from 0 to 23 and a minute from 0 to 59. *)
Lemma normalizeTime_valid (val : string) :
  exists h m, 0 <= h <= 23 /\ 0 <= m <= 59 /\ normalizeTime val = timeText h m.
Proof.
  destruct (matchesTimeFormat val) eqn:Hmatch.
  - destruct (matchesTimeFormat_inv _ Hmatch) as (hs & ms & Hval).
    rewrite (normalizeTime_timeText _ _ _ Hval).
    destruct Hval as (Hh & Hm & _).
    pose proof (digitsValue_nonneg _ Hh). pose proof (digitsValue_nonneg _ Hm).
    eexists _, _. split; [| split; [| reflexivity]]; lia.
  - rewrite normalizeTime_default by assumption.
    exists 8, 0. repeat split; lia.
Qed.

(** *** Committed edits *)

(** The museum visit, edited to start at a text past the end of the day and
    to last 50 minutes. *)
Definition lateMuseum : WeekendActivity :=
  activityAt "act_2" "  " saturday "25:70" 50.

Example lateMuseum_cleaned :
  cleanedDraft lateMuseum = activityAt "act_2" "Untitled" saturday "23:59" 45.
Proof. reflexivity. Qed.

(** The lunch, edited in the dialog: the duration field holds [.5], which
    [parseInt(".5", 10)] reads as NaN. *)
Definition halfMinuteLunch : WeekendActivity :=
  {| id := "act_3"; title := "Lunch"; category := other; day := saturday;
     start := "12:00"; durationMins := NaN; mood := None; notes := None |}.

(** A drag move of that lunch prints its start from NaN. *)
Example halfMinuteLunch_moved :
  start (movedActivity 5 23 halfMinuteLunch sunday 660) = "NaN:NaN"%string.
Proof. reflexivity. Qed.

(** C8 on the code.  The duration a committed edit stores is not always a
    multiple of 15 that is 15 or more.  The lunch edited to a duration the
    form reads as NaN is committed with the duration NaN; every draft with
    the duration NaN is committed, whatever else is scheduled, since the
    conflict check compares with NaN, and the activity of its id then
    carries NaN.  For a draft whose duration is a number the floor works:
    the committed duration is a multiple of 15 and at least 15, and an
    edit without conflict puts the cleaned draft in place of every
    activity of the draft's id and leaves the others as they were. *)
Theorem saveEdit_commits_NaN_duration :
  saveEdit (Some halfMinuteLunch) [brunch; museum; lunch]
  = ([brunch; museum;
      {| id := "act_3"; title := "Lunch"; category := other; day := saturday;
         start := "12:00"; durationMins := NaN; mood := None;
         notes := None |}], None)
  /\ (forall draft prev,
        durationMins draft = NaN ->
        saveEdit (Some draft) prev
        = (List.map
             (fun a => if String.eqb (id a) (id draft)
                       then cleanedDraft draft else a) prev, None)
        /\ durationMins (cleanedDraft draft) = NaN)
  /\ (forall draft prev d,
        durationMins draft = Some d ->
        (exists k, durationMins (cleanedDraft draft) = Some (15 * k) /\ 1 <= k)
        /\ (hasConflict prev (cleanedDraft draft) (Some (id draft)) = false ->
            saveEdit (Some draft) prev
            = (List.map
                 (fun a => if String.eqb (id a) (id draft)
                           then cleanedDraft draft else a) prev, None))).
Proof.
  split; [reflexivity |]. split.
  - intros draft prev Hnan.
    pose proof (cleanedDraft_duration_NaN draft Hnan) as Hc.
    split; [| exact Hc].
    unfold saveEdit.
    now rewrite (hasConflict_NaN_duration prev (cleanedDraft draft) _ Hc).
  - intros draft prev d Hd. split.
    + rewrite (cleanedDraft_duration draft d Hd).
      destruct (slotDuration (inject_Z d)) as ((k & Hk) & Hge & _).
      exists k. rewrite Hk. split; [reflexivity |].
      unfold MIN_SLOT_MINUTES in *. lia.
    + intros Hfree. unfold saveEdit.
      change (id (cleanedDraft draft)) with (id draft). now rewrite Hfree.
Qed.

(** *** Committed inserts *)

(** A drop ends in the "added" toast only on the insert branch. *)
Lemma handleDrop_added (startHour endHour : Z) (e : DragEvent) (day' : DayKey)
    (newId : string) (prev acts' : list WeekendActivity) (t : string)
    (d : DayKey) :
  handleDrop startHour endHour e day' newId prev
    = (acts', Some (AddedToSchedule t d)) ->
  exists mins payload q,
    getMinutesFromElement startHour endHour (clientY e) (currentTarget e)
      = Some mins
    /\ external e = Parsed payload
    /\ p_durationMins payload = Some q
    /\ hasConflict prev
         (droppedActivity startHour endHour newId payload day' mins) None
       = false
    /\ acts' = prev ++ [droppedActivity startHour endHour newId payload day' mins].
Proof.
  unfold handleDrop.
  destruct (getMinutesFromElement _ _ _ _) as [mins |]; [| discriminate].
  destruct (negb _).
  - destruct (List.find _ prev); [| discriminate].
    destruct (hasConflict _ _ _); discriminate.
  - destruct (external e) as [| | payload]; try discriminate.
    destruct (_ || _) eqn:Hguard; [discriminate |].
    destruct (hasConflict _ _ _) eqn:Hc; [discriminate |].
    intros H. injection H as <- _ _.
    apply orb_false_iff in Hguard as [_ Hq].
    apply negb_false_iff in Hq.
    destruct (p_durationMins payload) as [q |] eqn:Eq; [| discriminate].
    exists mins, payload, q. auto.
Qed.

(** A custom activity of twenty hours, and one of twenty-three hours and a
    quarter, dropped at the top of the track. *)
Definition roadTripPayload : Payload :=
  {| p_title := Some "Road trip"%string; p_category := Some outdoor;
     p_durationMins := Some 1200%Q; p_mood := None; p_notes := None |}.

Definition roadTripDrop : DragEvent :=
  {| clientY := 8; currentTarget := Some sampleTrack;
     internalId := EmptyString; external := Parsed roadTripPayload |}.

Definition festivalPayload : Payload :=
  {| p_title := Some "Festival"%string; p_category := Some outdoor;
     p_durationMins := Some 1395%Q; p_mood := None; p_notes := None |}.

Definition festivalDrop : DragEvent :=
  {| clientY := 8; currentTarget := Some sampleTrack;
     internalId := EmptyString; external := Parsed festivalPayload |}.

(** C5 on the code.  The start of a committed insert can lie before the
    window start.  With the default window from 05:00 to 23:00, a drop of a
    twenty-hour activity is committed with the start 03:00, and a drop of
    an activity of 1395 minutes with the start [-1:-15], a text that is no
    time of day.  In general the committed duration is the larger of 15
    and the request rounded to 15, a multiple of 15, and the committed
    start is the text of [min(max(drop minute, window start), window end
    - duration)]: the upper bound is applied last, so whenever the
    duration is longer than the window the start is the window end less
    the duration, before the window start, wherever the drop was. *)
Theorem insert_misses_window_start :
  handleDrop 5 23 festivalDrop saturday "act_9" []
  = ([{| id := "act_9"; title := "Festival"; category := outdoor;
         day := saturday; start := "-1:-15"; durationMins := Some 1395;
         mood := None; notes := Some EmptyString |}],
     Some (AddedToSchedule "Festival" saturday))
  /\ handleDrop 5 23 roadTripDrop saturday "act_9" []
     = ([{| id := "act_9"; title := "Road trip"; category := outdoor;
            day := saturday; start := "03:00"; durationMins := Some 1200;
            mood := None; notes := Some EmptyString |}],
        Some (AddedToSchedule "Road trip" saturday))
  /\ toMinutes "03:00" = Some 180
  /\ 180 < 5 * 60
  /\ (forall startHour endHour e day' newId prev acts' t d,
        handleDrop startHour endHour e day' newId prev
          = (acts', Some (AddedToSchedule t d)) ->
        exists mins payload q newAct duration,
          getMinutesFromElement startHour endHour (clientY e) (currentTarget e)
            = Some mins
          /\ external e = Parsed payload
          /\ p_durationMins payload = Some q
          /\ acts' = prev ++ [newAct]
          /\ durationMins newAct = Some duration
          /\ duration = Z.max MIN_SLOT_MINUTES (roundToStep q MIN_SLOT_MINUTES)
          /\ (exists k, duration = 15 * k) /\ 15 <= duration
          /\ start newAct
             = toTimeString
                 (Z.min (Z.max mins (startHour * 60))
                    (endHour * 60 - duration))
          /\ (endHour * 60 - duration < startHour * 60 ->
              start newAct = toTimeString (endHour * 60 - duration))).
Proof.
  split; [reflexivity |]. split; [reflexivity |].
  split; [reflexivity |]. split; [lia |].
  intros startHour endHour e day' newId prev acts' t d H.
  destruct (handleDrop_added _ _ _ _ _ _ _ _ _ H)
    as (mins & payload & q & Hm & He & Hq & _ & Hacts).
  exists mins, payload, q,
    (droppedActivity startHour endHour newId payload day' mins),
    (Z.max MIN_SLOT_MINUTES (roundToStep q MIN_SLOT_MINUTES)).
  destruct (slotDuration q) as (Hk & Hge & _).
  cbn [droppedActivity durationMins start]. rewrite Hq. cbn [default].
  unfold droppedDuration, clamp.
  set (duration := Z.max MIN_SLOT_MINUTES (roundToStep q MIN_SLOT_MINUTES)) in *.
  repeat (split; [assumption || reflexivity |]).
  intros Hlong. unfold Datatypes.id. fold duration. f_equal. lia.
Qed.

(** *** The scenarios, run through the handlers *)


(** The hike payload dropped at 10:00 on a Saturday that holds the brunch
    from 09:30 to 10:30, the brunch dragged onto the museum visit, and the
    lunch edited to start at 11:30: each request is rejected and the list
    stays. *)
Definition hikeAtTen : DragEvent :=
  {| clientY := 208; currentTarget := Some sampleTrack;
     internalId := EmptyString; external := Parsed hikePayload |}.

Definition brunchOntoMuseum : DragEvent :=
  {| clientY := 248; currentTarget := Some sampleTrack;
     internalId := "act_1"; external := NoExternal |}.

Definition earlyLunch : WeekendActivity :=
  activityAt "act_3" "Lunch" saturday "11:30" 60.

Lemma conflict_leaves_list_unchanged_witness :
  handleDrop 5 23 brunchOntoMuseum saturday "act_9" [brunch; museum; lunch]
  = ([brunch; museum; lunch], Some SchedulingConflict)
  /\ fst (handleDrop 5 23 hikeAtTen saturday "act_9" [brunch]) = [brunch]
  /\ saveEdit (Some earlyLunch) [brunch; museum; lunch]
     = ([brunch; museum; lunch], Some SchedulingConflict).
Proof.
  destruct (conflict_leaves_list_unchanged 5 23) as (Hmove & Hinsert & Hedit & _).
  split; [| split].
  - apply (Hmove brunchOntoMuseum saturday "act_9"%string
             [brunch; museum; lunch] 660 brunch);
      [reflexivity | discriminate | reflexivity | reflexivity].
  - apply (Hinsert hikeAtTen saturday "act_9"%string [brunch] 600 hikePayload);
      reflexivity.
  - apply Hedit. reflexivity.
Defined.

(** A payload without a title is rejected, and a title of blanks is
    stored as ["Untitled"]. *)
Definition untitledPayload : Payload :=
  {| p_title := Some EmptyString; p_category := Some outdoor;
     p_durationMins := Some 90%Q; p_mood := None; p_notes := None |}.

Definition untitledDrop : DragEvent :=
  {| clientY := 208; currentTarget := Some sampleTrack;
     internalId := EmptyString; external := Parsed untitledPayload |}.

Lemma titles_stay_nonempty_witness :
  handleDrop 5 23 untitledDrop saturday "act_9" [brunch]
  = ([brunch], Some InvalidActivity)
  /\ title (cleanedDraft lateMuseum) = "Untitled"%string
  /\ titled (fst (saveEdit (Some lateMuseum) [brunch; museum; lunch])).
Proof.
  destruct (titles_stay_nonempty 5 23) as (Hinvalid & Huntitled & _ & Hedit & _).
  split; [| split].
  - apply (Hinvalid untitledDrop saturday "act_9"%string [brunch] 600
             untitledPayload); try reflexivity. now right.
  - apply Huntitled. reflexivity.
  - apply Hedit. repeat constructor; discriminate.
Defined.

End ScheduleFacts.

(* ===================================================================== *)
(** ** Facts about the next free slot                                     *)
(* ===================================================================== *)

Module PlannerFacts.

Import JS.
Import JSFacts.
Import Schedule.
Import ScheduleFacts.

(** The Saturday activities carry starts of the time format. *)
Definition saturdayStartsWellFormed (existing : list WeekendActivity) : Prop :=
  forall a, In a existing -> day a = saturday ->
            matchesTimeFormat (start a) = true.

(** The Saturday activities carry durations that are numbers. *)
Definition saturdayDurationsAreNumbers (existing : list WeekendActivity)
    : Prop :=
  forall a, In a existing -> day a = saturday -> durationMins a <> NaN.

(** [e] is the minute at which [a] ends. *)
Definition endsAt (a : WeekendActivity) (e : Z) : Prop :=
  exists s d,
    Planner.toMinutes (start a) = Some s /\ durationMins a = Some d
    /\ e = s + d.

(** [latest] is the latest end among the Saturday activities. *)
Definition latestSaturdayEnd (existing : list WeekendActivity) (latest : Z)
    : Prop :=
  (exists a, In a existing /\ day a = saturday /\ endsAt a latest)
  /\ (forall a e, In a existing -> day a = saturday -> endsAt a e ->
                  e <= latest).

(** [r] is [x] rounded up to a multiple of 30. *)
Definition roundedUpTo30 (x r : Z) : Prop :=
  r mod 30 = 0 /\ r - 30 < x <= r.

Lemma planner_toMinutes_timeText (val : string) (hs ms : list Z) :
  isTimeText val hs ms ->
  Planner.toMinutes val = Some (digitsValue hs * 60 + digitsValue ms).
Proof.
  intros (Hh & Hm & Hlh & Hlm & ->).
  assert (Hneh : hs <> []) by (destruct hs; [destruct Hlh |]; discriminate).
  assert (Hnem : ms <> []) by (destruct ms; discriminate).
  unfold Planner.toMinutes.
  rewrite split_digits_colon, split_digitString by assumption.
  cbn [List.map nth]. now rewrite !Number_digitString by assumption.
Qed.

Lemma wellFormed_start_parses (a : WeekendActivity) :
  matchesTimeFormat (start a) = true ->
  exists s, Planner.toMinutes (start a) = Some s.
Proof.
  intros H. destruct (matchesTimeFormat_inv _ H) as (hs & ms & Hval).
  rewrite (planner_toMinutes_timeText _ _ _ Hval). eauto.
Qed.

(** The [reduce] over activities whose starts and durations are all
    numbers: the largest of the initial value and the ends. *)
Lemma maxEnd_fold (acts : list WeekendActivity) :
  (forall a, In a acts ->
     exists s d, Planner.toMinutes (start a) = Some s
                 /\ durationMins a = Some d) ->
  forall acc,
  exists M,
    fold_left
      (fun max a =>
         Math_max max (add (Planner.toMinutes (start a)) (durationMins a)))
      acts (Some acc) = Some M
    /\ acc <= M
    /\ (forall a e, In a acts -> endsAt a e -> e <= M)
    /\ (M = acc \/ exists a, In a acts /\ endsAt a M).
Proof.
  induction acts as [| a acts IH]; intros Hparse acc.
  - exists acc. cbn [fold_left].
    split; [reflexivity |]. split; [lia |].
    split; [intros ? ? [] | now left].
  - destruct (Hparse a (or_introl eq_refl)) as (s & d & Hs & Hd).
    destruct (IH (fun b Hb => Hparse b (or_intror Hb))
                (Z.max acc (s + d)))
      as (M & Hfold & Hacc & Hall & Hwit).
    exists M. cbn [fold_left]. rewrite Hs, Hd. cbn [add Math_max].
    split; [exact Hfold |]. split; [lia |]. split.
    + intros b e [<- | Hb] He.
      * destruct He as (s' & d' & Hs' & Hd' & ->).
        rewrite Hs in Hs'. rewrite Hd in Hd'.
        injection Hs' as <-. injection Hd' as <-. lia.
      * now apply (Hall b).
    + destruct Hwit as [-> | (b & Hb & He)].
      * destruct (Z.max_spec acc (s + d)) as [[_ ->] | [_ ->]].
        -- right. exists a. split; [now left |]. exists s, d. auto.
        -- now left.
      * right. exists b. split; [now right | exact He].
Qed.

Lemma ceil_div_30 (x : Z) : Math_ceil (inject_Z x / 30) = - ((- x) / 30).
Proof.
  unfold Math_ceil, Qceiling, Qfloor, Qdiv, Qmult, Qinv, Qopp, inject_Z.
  simpl. now rewrite Z.mul_1_r.
Qed.

Lemma ceil_30_rounds_up (x : Z) :
  roundedUpTo30 x (Math_ceil (inject_Z x / 30) * 30).
Proof.
  unfold roundedUpTo30. rewrite ceil_div_30.
  pose proof (Z.div_mod (- x) 30). pose proof (Z.mod_pos_bound (- x) 30).
  split; [apply Z.mod_mul; lia | lia].
Qed.

Lemma roundedUpTo30_unique (x r r' : Z) :
  roundedUpTo30 x r -> roundedUpTo30 x r' -> r = r'.
Proof.
  unfold roundedUpTo30. intros [Hm Hr] [Hm' Hr'].
  apply Z.mod_divide in Hm as [k ->]; [| lia].
  apply Z.mod_divide in Hm' as [k' ->]; [| lia].
  assert (k = k') by lia. now subst.
Qed.

(** The text the function returns for a slot: the same as [toTimeString]
    prints. *)
Lemma formatted_slot (c : Z) :
  String.append
    (padStart 2 "0"
       (String_num (option_map (fun x => Math_floor (inject_Z x / 60)) (Some c))))
    (String ":"
       (padStart 2 "0" (String_num (option_map (fun x => rem x 60) (Some c)))))
  = toTimeString c.
Proof. reflexivity. Qed.

Lemma saturday_filter_In (existing : list WeekendActivity)
    (a : WeekendActivity) :
  In a (List.filter (fun a => bool_decide (day a = saturday)) existing)
  <-> In a existing /\ day a = saturday.
Proof. now rewrite filter_In, bool_decide_eq_true. Qed.

Lemma pickNextStartTime_empty (existing : list WeekendActivity) :
  (forall a, In a existing -> day a <> saturday) ->
  Planner.pickNextStartTime existing = "10:00"%string.
Proof.
  intros Hnone. unfold Planner.pickNextStartTime.
  destruct (List.filter _ existing) as [| a l] eqn:E; [reflexivity |].
  assert (Ha : In a (List.filter (fun a => bool_decide (day a = saturday)) existing))
    by (rewrite E; now left).
  apply saturday_filter_In in Ha as [Hin Hday]. now destruct (Hnone a Hin).
Qed.

Lemma pickNextStartTime_latest (existing : list WeekendActivity) (latest : Z) :
  saturdayStartsWellFormed existing ->
  saturdayDurationsAreNumbers existing ->
  latestSaturdayEnd existing latest ->
  Planner.pickNextStartTime existing
  = toTimeString
      (Z.min (Math_ceil (inject_Z (Z.max (7 * 60) latest) / 30) * 30)
         (22 * 60 + 30)).
Proof.
  intros Hwf Hnum ((a0 & Hin0 & Hday0 & Hend0) & Hmax).
  unfold Planner.pickNextStartTime.
  set (satActs := List.filter (fun a => bool_decide (day a = saturday)) existing).
  assert (Hsat : forall a, In a satActs <-> In a existing /\ day a = saturday)
    by (intros a; apply saturday_filter_In).
  assert (Hne : (List.length satActs =? 0)%nat = false).
  { apply Nat.eqb_neq. intros Hz. apply length_zero_iff_nil in Hz.
    assert (Hin : In a0 satActs) by (apply Hsat; auto).
    rewrite Hz in Hin. destruct Hin. }
  rewrite Hne.
  destruct (maxEnd_fold satActs) with (acc := 7 * 60)
    as (M & -> & Hacc & Hall & Hwit).
  { intros a Ha. apply Hsat in Ha as [Hin Hday].
    destruct (wellFormed_start_parses a (Hwf a Hin Hday)) as [s Hs].
    pose proof (Hnum a Hin Hday) as Hd.
    destruct (durationMins a) as [d |]; [| now destruct Hd].
    exists s, d. auto. }
  assert (HM : M = Z.max (7 * 60) latest).
  { assert (latest <= M) by (apply (Hall a0); [apply Hsat; auto | exact Hend0]).
    destruct Hwit as [-> | (b & Hb & He)]; [lia |].
    apply Hsat in Hb as [Hb Hdayb].
    assert (M <= latest) by (now apply (Hmax b)). lia. }
  subst M. cbn [option_map Math_min]. apply formatted_slot.
Qed.

(** C6, as the code has it.  With no Saturday activity the result is
    ["10:00"].  Otherwise, for Saturday activities whose starts are texts
    of the time format and whose durations are numbers, it is the text of
    a slot that is the later of 07:00 and the latest Saturday end, rounded
    up to a multiple of 30 minutes, and cut to 22:30; the slot lies
    between 07:00 and 22:30 and never exceeds 22:30. *)
Theorem pickNextStartTime_slot (existing : list WeekendActivity) (latest : Z) :
  saturdayStartsWellFormed existing ->
  saturdayDurationsAreNumbers existing ->
  latestSaturdayEnd existing latest ->
  exists rounded slot,
    roundedUpTo30 (Z.max (7 * 60) latest) rounded
    /\ slot = Z.min rounded (22 * 60 + 30)
    /\ 7 * 60 <= slot <= 22 * 60 + 30
    /\ Planner.pickNextStartTime existing = timeText (slot / 60) (slot mod 60)
    /\ Planner.toMinutes (Planner.pickNextStartTime existing) = Some slot
    /\ (forall l, (forall a, In a l -> day a <> saturday) ->
                  Planner.pickNextStartTime l = "10:00"%string).
Proof.
  intros Hwf Hnum Hlatest.
  pose proof (ceil_30_rounds_up (Z.max (7 * 60) latest)) as Hr.
  set (rounded := Math_ceil (inject_Z (Z.max (7 * 60) latest) / 30) * 30) in *.
  exists rounded, (Z.min rounded (22 * 60 + 30)).
  assert (Hslot : 7 * 60 <= Z.min rounded (22 * 60 + 30) <= 22 * 60 + 30)
    by (destruct Hr as [_ Hr]; lia).
  rewrite (pickNextStartTime_latest _ _ Hwf Hnum Hlatest). fold rounded.
  destruct (toTimeString_day (Z.min rounded (22 * 60 + 30))) as (E & Hh & Hm);
    [lia |].
  split; [exact Hr |]. split; [reflexivity |]. split; [exact Hslot |].
  split; [exact E |]. split; [| exact pickNextStartTime_empty].
  rewrite E.
  assert (Hval : isTimeText
            (timeText (Z.min rounded (22 * 60 + 30) / 60)
               (Z.min rounded (22 * 60 + 30) mod 60))
            [Z.min rounded (22 * 60 + 30) / 60 / 10;
             (Z.min rounded (22 * 60 + 30) / 60) mod 10]
            [Z.min rounded (22 * 60 + 30) mod 60 / 10;
             (Z.min rounded (22 * 60 + 30) mod 60) mod 10]).
  { unfold isTimeText, isDecimalDigit.
    set (h := Z.min rounded (22 * 60 + 30) / 60) in *.
    set (m := Z.min rounded (22 * 60 + 30) mod 60) in *.
    pose proof (Z.div_mod h 10). pose proof (Z.mod_pos_bound h 10).
    pose proof (Z.div_mod m 10). pose proof (Z.mod_pos_bound m 10).
    repeat split; auto; repeat constructor; lia. }
  rewrite (planner_toMinutes_timeText _ _ _ Hval). f_equal.
  unfold digitsValue. cbn [fold_left].
  set (s := Z.min rounded (22 * 60 + 30)) in *.
  pose proof (Z.div_mod s 60). pose proof (Z.div_mod (s / 60) 10).
  pose proof (Z.div_mod (s mod 60) 10). lia.
Qed.

Lemma sample_day_wellFormed : saturdayStartsWellFormed [brunch; museum; lunch].
Proof.
  intros a Ha _. cbn [In] in Ha.
  destruct Ha as [<- | [<- | [<- | []]]]; reflexivity.
Qed.

Lemma sample_day_numbers : saturdayDurationsAreNumbers [brunch; museum; lunch].
Proof.
  intros a Ha _. cbn [In] in Ha.
  destruct Ha as [<- | [<- | [<- | []]]]; discriminate.
Qed.

Lemma sample_day_latest : latestSaturdayEnd [brunch; museum; lunch] 780.
Proof.
  split.
  - exists lunch. cbn [In]. split; [auto |]. split; [reflexivity |].
    exists 720, 60. repeat split; reflexivity.
  - intros a e Ha _ (s & d & Hs & Hd & ->). cbn [In] in Ha.
    destruct Ha as [<- | [<- | [<- | []]]];
      vm_compute in Hs, Hd; injection Hs as <-; injection Hd as <-; lia.
Qed.

Lemma pickNextStartTime_slot_witness :
  exists rounded slot,
    roundedUpTo30 (Z.max (7 * 60) 780) rounded
    /\ slot = Z.min rounded (22 * 60 + 30)
    /\ 7 * 60 <= slot <= 22 * 60 + 30
    /\ Planner.pickNextStartTime [brunch; museum; lunch]
       = timeText (slot / 60) (slot mod 60)
    /\ Planner.toMinutes (Planner.pickNextStartTime [brunch; museum; lunch])
       = Some slot
    /\ (forall l, (forall a, In a l -> day a <> saturday) ->
                  Planner.pickNextStartTime l = "10:00"%string).
Proof.
  exact (pickNextStartTime_slot [brunch; museum; lunch] 780
           sample_day_wellFormed sample_day_numbers sample_day_latest).
Defined.

Example sample_day_next : Planner.pickNextStartTime [brunch; museum; lunch] = "13:00"%string.
Proof. reflexivity. Qed.

(** A run from 05:00 to 06:00, inside the default day window. *)
Definition earlyRun : WeekendActivity :=
  activityAt "act_6" "Run" saturday "05:00" 60.

(** A lunch from an imported plan, whose start is no time text. *)
Definition noonLunch : WeekendActivity :=
  activityAt "act_3" "Lunch" saturday "noon" 60.

Lemma earlyRun_latest : latestSaturdayEnd [earlyRun] 360.
Proof.
  split.
  - exists earlyRun. cbn [In]. split; [auto |]. split; [reflexivity |].
    exists 300, 60. repeat split; reflexivity.
  - intros a e Ha _ (s & d & Hs & Hd & ->). cbn [In] in Ha.
    destruct Ha as [<- | []].
    vm_compute in Hs, Hd. injection Hs as <-. injection Hd as <-. lia.
Qed.

Lemma earlyRun_wellFormed : saturdayStartsWellFormed [earlyRun].
Proof.
  intros a Ha _. cbn [In] in Ha. destruct Ha as [<- | []]. reflexivity.
Qed.

Lemma earlyRun_numbers : saturdayDurationsAreNumbers [earlyRun].
Proof.
  intros a Ha _. cbn [In] in Ha. destruct Ha as [<- | []]. discriminate.
Qed.

(** C6, as stated, fails.  When the latest Saturday activity ends before
    07:00 the result is 07:00, not that end rounded up: the maximum starts
    from 07:00.  A run from 05:00 to 06:00 gives ["07:00"], where the end
    rounded up to a multiple of 30 is 06:00.  And not every list gives a
    slot at or before the bound: a Saturday activity whose duration is NaN,
    or whose start is no time text, gives the text [NaN:NaN], which reads
    as no minute at all. *)
Lemma pickNextStartTime_misses_claim :
  Planner.pickNextStartTime [earlyRun] = "07:00"%string
  /\ latestSaturdayEnd [earlyRun] 360
  /\ roundedUpTo30 360 360
  /\ toTimeString (Z.min 360 (22 * 60 + 30)) = "06:00"%string
  /\ ~ (forall existing latest rounded,
          saturdayStartsWellFormed existing ->
          saturdayDurationsAreNumbers existing ->
          latestSaturdayEnd existing latest ->
          roundedUpTo30 latest rounded ->
          Planner.pickNextStartTime existing
          = toTimeString (Z.min rounded (22 * 60 + 30)))
  /\ Planner.pickNextStartTime [brunch; halfMinuteLunch] = "NaN:NaN"%string
  /\ saturdayStartsWellFormed [brunch; halfMinuteLunch]
  /\ Planner.pickNextStartTime [brunch; noonLunch] = "NaN:NaN"%string
  /\ saturdayDurationsAreNumbers [brunch; noonLunch]
  /\ Planner.toMinutes "NaN:NaN" = NaN.
Proof.
  assert (Hr : roundedUpTo30 360 360) by (split; [reflexivity | lia]).
  split; [reflexivity |]. split; [exact earlyRun_latest |].
  split; [exact Hr |]. split; [reflexivity |].
  split.
  { intros H.
    specialize (H [earlyRun] 360 360 earlyRun_wellFormed earlyRun_numbers
                  earlyRun_latest Hr).
    discriminate H. }
  split; [reflexivity |].
  split.
  { intros a Ha _. cbn [In] in Ha. destruct Ha as [<- | [<- | []]]; reflexivity. }
  split; [reflexivity |].
  split; [| reflexivity].
  intros a Ha _. cbn [In] in Ha. destruct Ha as [<- | [<- | []]]; discriminate.
Qed.

End PlannerFacts.

(* ===================================================================== *)
(** ** Facts about the viewport window                                    *)
(* ===================================================================== *)

Module VirtualFacts.

Import JS.
Import Virtual.

Lemma loopRange_In (lo hi i : Z) : In i (loopRange lo hi) <-> lo <= i <= hi.
Proof.
  unfold loopRange. rewrite in_map_iff. split.
  - intros (k & <- & Hk). apply in_seq in Hk. lia.
  - intros Hi. exists (Z.to_nat (i - lo)). split; [lia |].
    apply in_seq. lia.
Qed.

Lemma index_itemAt (h : Q) (l : list Z) : List.map index (List.map (itemAt h) l) = l.
Proof.
  induction l as [| i l IH]; [reflexivity |]. cbn [List.map]. now rewrite IH.
Qed.

(** An item that ends exactly at the scroll offset lies one before it. *)
Lemma floor_before_touch (h s : Q) (i : Z) :
  (0 < h)%Q -> (s <= inject_Z (i + 1) * h)%Q -> Math_floor (s / h) - 1 <= i.
Proof.
  intros Hh Hs. unfold Math_floor.
  assert (H : Qfloor (s / h) <= Qfloor (inject_Z (i + 1))).
  { apply Qfloor_resp_le. now apply Qle_shift_div_r. }
  rewrite Qfloor_Z in H. lia.
Qed.

(** The last index is at or after every item that starts at or before the
    end of the viewport. *)
Lemma ceil_after_touch (h x : Q) (i : Z) :
  (0 < h)%Q -> (inject_Z i * h <= x)%Q -> i <= Math_ceil (x / h).
Proof.
  intros Hh Hx. unfold Math_ceil.
  assert (H : Qceiling (inject_Z i) <= Qceiling (x / h)).
  { apply Qceiling_resp_le. now apply Qle_shift_div_l. }
  now rewrite Qceiling_Z in H.
Qed.

Section Window.

Context {T : Type}.
Variable items : list T.
Variable config : VirtualizationConfig.
Variable scrollOffset : Q.

Let n : Z := Z.of_nat (List.length items).
Let h : Q := itemHeight config.
Let c : Q := containerHeight config.
Let over : Z := default 5 (overscan config).
Let limit : Z := default 50 (threshold config).
Let first : Z := startIndex h scrollOffset over.
Let last : Z := endIndex (List.length items) h c scrollOffset over.

Lemma useVirtualization_small :
  n <= limit ->
  useVirtualization items config scrollOffset
  = List.map (fun i => itemAt h (Z.of_nat i)) (seq 0 (List.length items)).
Proof.
  intros Hn. unfold useVirtualization. fold limit.
  destruct (Z.ltb_spec limit (Z.of_nat (List.length items))) as [Hlt | _];
    [unfold n in Hn; lia | reflexivity].
Qed.

Lemma useVirtualization_large :
  limit < n ->
  useVirtualization items config scrollOffset
  = List.map (itemAt h) (loopRange first last).
Proof.
  intros Hn. unfold useVirtualization. fold limit.
  destruct (Z.ltb_spec limit (Z.of_nat (List.length items))) as [_ | Hge];
    [reflexivity | unfold n in Hn; lia].
Qed.

Lemma window_covers_touch (i : Z) :
  (0 < h)%Q -> 1 <= over -> 0 <= i < n ->
  spanMeetsViewport h c scrollOffset i -> first <= i <= last.
Proof.
  intros Hh Hov Hi [Hstart Hend].
  pose proof (floor_before_touch h scrollOffset i Hh Hend).
  pose proof (ceil_after_touch h (scrollOffset + c) i Hh Hstart).
  unfold first, last, startIndex, endIndex. fold n. lia.
Qed.

End Window.

(** C9, as the code has it.  For an item height above 0: at or below the
    threshold the hook returns the items of all indices 0 .. n-1 in order;
    above it, it returns the items of a contiguous range of indices, which,
    when the overscan is 1 or more, holds every index whose pixel span
    [[i * itemHeight, (i + 1) * itemHeight]] meets the viewport
    [[scrollOffset, scrollOffset + containerHeight]].  Each returned item
    carries its index in range and the offsets [index * itemHeight] and
    [(index + 1) * itemHeight]. *)
Theorem useVirtualization_window {T : Type} (items : list T)
    (config : VirtualizationConfig) (scrollOffset : Q) :
  (0 < itemHeight config)%Q ->
  let n := Z.of_nat (List.length items) in
  let h := itemHeight config in
  let c := containerHeight config in
  let over := default 5 (overscan config) in
  let limit := default 50 (threshold config) in
  let result := useVirtualization items config scrollOffset in
  (n <= limit ->
   List.map index result = List.map Z.of_nat (seq 0 (List.length items)))
  /\ (limit < n ->
      (exists first last, List.map index result = loopRange first last)
      /\ (1 <= over ->
          forall i, 0 <= i < n -> spanMeetsViewport h c scrollOffset i ->
                    In i (List.map index result)))
  /\ (forall item, In item result ->
        0 <= index item < n
        /\ start item = (inject_Z (index item) * h)%Q
        /\ end_ item = (inject_Z (index item + 1) * h)%Q
        /\ size item = h).
Proof.
  intros Hh n h c over limit result.
  split; [| split].
  - intros Hn. unfold result.
    rewrite (useVirtualization_small items config scrollOffset Hn).
    rewrite List.map_map. reflexivity.
  - intros Hn. unfold result.
    rewrite (useVirtualization_large items config scrollOffset Hn).
    rewrite index_itemAt. split; [eexists _, _; reflexivity |].
    intros Hov1 i Hi Hspan. apply loopRange_In.
    now apply window_covers_touch.
  - intros item Hitem. unfold result in Hitem.
    destruct (Z_le_gt_dec n limit) as [Hn | Hn].
    + rewrite (useVirtualization_small items config scrollOffset Hn) in Hitem.
      apply in_map_iff in Hitem as (k & <- & Hk). apply in_seq in Hk.
      cbn [itemAt index start end_ size]. repeat split; unfold n; lia.
    + rewrite (useVirtualization_large items config scrollOffset) in Hitem
        by (fold n limit; lia).
      apply in_map_iff in Hitem as (i & <- & Hi). apply loopRange_In in Hi.
      cbn [itemAt index start end_ size].
      unfold startIndex, endIndex in Hi. fold n in Hi.
      repeat split; lia.
Qed.

(** Sixty rows of 40 pixels in a viewport of 400, with the default
    overscan and threshold, scrolled to the pixel 1000. *)
Definition sixtyRows : list unit := repeat tt 60.

Definition defaultWindow : VirtualizationConfig :=
  {| itemHeight := 40; containerHeight := 400; overscan := None;
     threshold := None |}.

Lemma useVirtualization_window_witness :
  In 25 (List.map index (useVirtualization sixtyRows defaultWindow 1000))
  /\ In 24 (List.map index (useVirtualization sixtyRows defaultWindow 1000)).
Proof.
  pose proof (useVirtualization_window sixtyRows defaultWindow 1000
                eq_refl) as H.
  cbv zeta in H. destruct H as (_ & Hlarge & _).
  destruct (Hlarge ltac:(cbn; lia)) as (_ & Hcover).
  split.
  - apply Hcover; [cbn; lia | cbn; lia |]. split; discriminate.
  - apply Hcover; [cbn; lia | cbn; lia |]. split; discriminate.
Defined.

(** Fifty-one rows of 10 pixels in a viewport of 50, without overscan,
    scrolled to the pixel 20. *)
Definition fiftyOneRows : list unit := repeat tt 51.

Definition noOverscan : VirtualizationConfig :=
  {| itemHeight := 10; containerHeight := 50; overscan := Some 0;
     threshold := None |}.

Definition inwardOverscan : VirtualizationConfig :=
  {| itemHeight := 10; containerHeight := 50; overscan := Some (-1);
     threshold := None |}.

(** C9, as stated, fails.  Without overscan the row that ends exactly at
    the scroll offset is left out: row 1 spans the pixels 10 to 20 and
    meets the viewport from 20 to 70 in the point 20, and the window runs
    from row 2 to row 7.  With the overscan -1 the window runs from row 3
    to row 6 and leaves out row 2, which lies inside the viewport. *)
Lemma window_misses_touching_row :
  List.map index (useVirtualization fiftyOneRows noOverscan 20)
  = [2; 3; 4; 5; 6; 7]
  /\ spanMeetsViewport 10 50 20 1
  /\ List.map index (useVirtualization fiftyOneRows inwardOverscan 20)
     = [3; 4; 5; 6]
  /\ spanMeetsViewport 10 50 20 2
  /\ ~ (forall (items : list unit) config scrollOffset i,
          (0 < itemHeight config)%Q ->
          default 50 (threshold config) < Z.of_nat (List.length items) ->
          0 <= i < Z.of_nat (List.length items) ->
          spanMeetsViewport (itemHeight config) (containerHeight config)
            scrollOffset i ->
          In i (List.map index (useVirtualization items config scrollOffset))).
Proof.
  assert (Hmeets : spanMeetsViewport 10 50 20 1)
    by (split; discriminate).
  split; [reflexivity |]. split; [exact Hmeets |].
  split; [reflexivity |]. split; [split; discriminate |].
  intros H.
  specialize (H fiftyOneRows noOverscan 20%Q 1 eq_refl
                ltac:(cbn; lia) ltac:(cbn; lia) Hmeets).
  change (In 1 [2; 3; 4; 5; 6; 7]) in H. cbn [In] in H.
  repeat (destruct H as [H | H]; [discriminate H |]). exact H.
Qed.

End VirtualFacts.

(* ===================================================================== *)
(** ** Facts about the plan store                                         *)
(* ===================================================================== *)

Module PersistenceFacts.

Import Persistence.

(** What a successful update of the localStorage backend stores: the
    patched plan, whose version is the one of the patch when the patch has
    one and the stored one otherwise. *)
Lemma updatePlanInLocalStorage_version (now : Date) (planId : string)
    (updates : PlanPatch) (storage : gmap string WeekendPlan)
    (plan : WeekendPlan) :
  storage !! planKey planId = Some plan ->
  exists storage' plan',
    updatePlanInLocalStorage now planId updates storage = (Resolved, storage')
    /\ storage' !! planKey planId = Some plan'
    /\ version plan' = default (version plan) (u_version updates)
    /\ updatedAt plan' = now.
Proof.
  intros Hplan. unfold updatePlanInLocalStorage. rewrite Hplan.
  eexists _, _. split; [reflexivity |].
  split; [apply lookup_insert_eq |]. split; reflexivity.
Qed.

(** What a committed update of the IndexedDB backend stores, for a patch
    that does not rename the plan: the version is the stored one plus 1,
    whatever the patch holds. *)
Lemma updatePlanInIndexedDB_version (now : Date) (planId : string)
    (updates : PlanPatch) (d d' : Database) (plan : WeekendPlan) :
  plansStore d !! planId = Some plan ->
  id plan = planId ->
  u_id updates = None \/ u_id updates = Some planId ->
  updatePlanInIndexedDB now planId updates d = (Resolved, d') ->
  d' = d
  \/ exists plan',
       plansStore d' !! planId = Some plan'
       /\ version plan' = version plan + 1
       /\ updatedAt plan' = now.
Proof.
  intros Hplan Hid Hpatch. unfold updatePlanInIndexedDB. rewrite Hplan.
  assert (Hkey : id (withVersion (version plan + 1)
                       (withUpdatedAt now (spread plan updates))) = planId).
  { cbn [withVersion withUpdatedAt spread id].
    destruct Hpatch as [-> | ->]; [exact Hid | reflexivity]. }
  rewrite Hkey.
  destruct (u_activities updates) as [acts |].
  - destruct (addActivities _ _ _) as [store' |]; intros H; injection H as <-.
    + right. eexists. cbn [plansStore]. split; [apply lookup_insert_eq |].
      split; reflexivity.
    + now left.
  - intros H. injection H as <-. right. eexists. cbn [plansStore].
    split; [apply lookup_insert_eq |]. split; reflexivity.
Qed.

(** The plan of the store's own test: version 1, theme lazy. *)
Definition storedPlan : WeekendPlan :=
  {| id := "plan_123_abc"; theme := lazy; activities := [];
     createdAt := 1000; updatedAt := 1000; version := 1;
     metadata := None |}.

Definition themePatch : PlanPatch :=
  {| u_id := None; u_theme := Some adventurous; u_activities := None;
     u_createdAt := None; u_updatedAt := None; u_version := None;
     u_metadata := None |}.

Definition staleVersionPatch : PlanPatch :=
  {| u_id := None; u_theme := None; u_activities := None;
     u_createdAt := None; u_updatedAt := None; u_version := Some 0;
     u_metadata := None |}.

Definition flatKeyManager : Manager :=
  {| db := None;
     localStorage := {[ planKey "plan_123_abc" := storedPlan ]} |}.

Definition structuredManager : Manager :=
  {| db := Some {| plansStore := {[ "plan_123_abc"%string := storedPlan ]};
                   activitiesStore := ∅ |};
     localStorage := ∅ |}.

(** C3 on the code.  On the localStorage backend a successful [updatePlan]
    with a patch of the theme leaves the stored version at 1, and a patch
    that carries version 0 lowers it to 0; the IndexedDB backend stores
    version 2 for the same patch of the theme. *)
Theorem localStorage_update_keeps_version :
  (fst (updatePlan 2000 "plan_123_abc" themePatch flatKeyManager) = Resolved
   /\ version <$> getPlan "plan_123_abc"
                    (snd (updatePlan 2000 "plan_123_abc" themePatch flatKeyManager))
      = Some 1)
  /\ (fst (updatePlan 2000 "plan_123_abc" staleVersionPatch flatKeyManager)
      = Resolved
      /\ version <$> getPlan "plan_123_abc"
                       (snd (updatePlan 2000 "plan_123_abc" staleVersionPatch
                               flatKeyManager))
         = Some 0)
  /\ (fst (updatePlan 2000 "plan_123_abc" themePatch structuredManager)
      = Resolved
      /\ version <$> getPlan "plan_123_abc"
                       (snd (updatePlan 2000 "plan_123_abc" themePatch
                               structuredManager))
         = Some 2).
Proof.
  repeat split; vm_compute; reflexivity.
Qed.

End PersistenceFacts.

(* ===================================================================== *)
(** ** More about the schedule component                                  *)
(* ===================================================================== *)

Module ScheduleMore.

Import JS.
Import JSFacts.
Import Schedule.
Import ScheduleFacts.

(** *** Time texts read and printed *)

Lemma timeText_isTimeText (h m : Z) :
  0 <= h <= 99 -> 0 <= m <= 99 ->
  isTimeText (timeText h m) [h / 10; h mod 10] [m / 10; m mod 10]
  /\ digitsValue [h / 10; h mod 10] = h
  /\ digitsValue [m / 10; m mod 10] = m.
Proof.
  intros Hh Hm.
  pose proof (Z.div_mod h 10). pose proof (Z.mod_pos_bound h 10).
  pose proof (Z.div_mod m 10). pose proof (Z.mod_pos_bound m 10).
  unfold isTimeText, isDecimalDigit, digitsValue. cbn [fold_left].
  repeat split; auto; repeat constructor; lia.
Qed.

Lemma timeText_digits (h m : Z) :
  0 <= h <= 99 -> 0 <= m <= 99 ->
  timeText h m
  = String.append (digitString [h / 10; h mod 10])
      (String ":" (digitString [m / 10; m mod 10]))
  /\ Forall isDecimalDigit [h / 10; h mod 10]
  /\ Forall isDecimalDigit [m / 10; m mod 10].
Proof.
  intros Hh Hm. destruct (timeText_isTimeText h m Hh Hm) as ((H1 & H2 & _) & _).
  split; [reflexivity | split; assumption].
Qed.

Lemma toMinutes_timeText (h m : Z) :
  0 <= h <= 99 -> 0 <= m <= 99 -> toMinutes (timeText h m) = Some (h * 60 + m).
Proof.
  intros Hh Hm.
  destruct (timeText_digits h m Hh Hm) as (-> & Hdh & Hdm).
  destruct (timeText_isTimeText h m Hh Hm) as (_ & Hvh & Hvm).
  unfold toMinutes.
  rewrite split_digits_colon, split_digitString by assumption.
  cbn [List.map nth nth_error].
  rewrite !parseInt_digitString by (assumption || discriminate).
  cbn [mul add orZero]. now rewrite Hvh, Hvm.
Qed.

(** X1.  Printing a minute count from 0 to [Number.MAX_SAFE_INTEGER] and
    reading the text back gives the count:
    [toMinutes (toTimeString t) = t], also past the end of the day, where
    the hour has more than two digits. *)
Theorem toMinutes_after_toTimeString (t : Z) :
  0 <= t <= MAX_SAFE_INTEGER -> toMinutes (toTimeString t) = Some t.
Proof. apply toMinutes_toTimeString. Qed.

Lemma toMinutes_after_toTimeString_witness :
  toMinutes (toTimeString 6015) = Some 6015.
Proof. apply toMinutes_after_toTimeString. unfold MAX_SAFE_INTEGER. lia. Defined.

(** X2.  Reading a text [HH:MM] with two-digit hour and a minute up to 59
    and printing the minutes gives the text back; the hour may exceed 23. *)
Theorem toTimeString_after_toMinutes (h m : Z) :
  0 <= h <= 99 -> 0 <= m <= 59 ->
  exists t,
    toMinutes (timeText h m) = Some t /\ toTimeString t = timeText h m.
Proof.
  intros Hh Hm. exists (h * 60 + m).
  split; [apply toMinutes_timeText; lia |].
  rewrite toTimeString_unfold, Z.rem_mod_nonneg by lia.
  assert (Eh : (h * 60 + m) / 60 = h).
  { rewrite Z.div_add_l by lia. rewrite Z.div_small by lia. lia. }
  assert (Em : (h * 60 + m) mod 60 = m).
  { rewrite Z.add_comm, Z.mod_add by lia. apply Z.mod_small. lia. }
  rewrite Eh, Em. unfold timeText.
  now rewrite !padStart_twoDigits by lia.
Qed.

Lemma toTimeString_after_toMinutes_witness :
  exists t,
    toMinutes (timeText 9 5) = Some t /\ toTimeString t = timeText 9 5.
Proof. apply toTimeString_after_toMinutes; lia. Defined.

(** *** Rounding to a step *)



(** Rounding to the slot keeps a value between two slot boundaries
    between them. *)
Lemma roundToStep_between (x : Q) (ka kb : Z) :
  (inject_Z (15 * ka) <= x)%Q -> (x <= inject_Z (15 * kb))%Q ->
  exists k, roundToStep x MIN_SLOT_MINUTES = 15 * k /\ ka <= k <= kb.
Proof.
  intros Ha Hb. unfold roundToStep, Math_round, MIN_SLOT_MINUTES.
  set (y := (x / inject_Z 15 + (1 # 2))%Q).
  exists (Qfloor y). split; [lia |].
  rewrite inject_Z_mult in Ha, Hb. change (inject_Z 15) with 15%Q in *.
  assert (Hy : (y * 15 == x + (15 # 2))%Q) by (unfold y; field).
  split.
  - assert (H : (inject_Z ka <= y)%Q) by lra.
    apply Qfloor_resp_le in H. now rewrite Qfloor_Z in H.
  - pose proof (Qfloor_le y) as Hle.
    assert (H : (inject_Z (Qfloor y) < inject_Z (kb + 1))%Q).
    { rewrite inject_Z_plus. change (inject_Z 1) with 1%Q. lra. }
    rewrite <- Zlt_Qlt in H. lia.
Qed.

(** *** The pointer position *)

Lemma clampQ_unit (v : Q) : (0 <= clampQ v 0 1)%Q /\ (clampQ v 0 1 <= 1)%Q.
Proof.
  unfold clampQ. split.
  - apply Q.min_glb; [apply Q.le_max_r | discriminate].
  - apply Q.le_min_r.
Qed.

Lemma clampQ_low (v : Q) : (v <= 0)%Q -> (clampQ v 0 1 == 0)%Q.
Proof.
  intros Hv. unfold clampQ.
  rewrite (Q.max_r v 0 Hv). apply Q.min_l. discriminate.
Qed.

Lemma clampQ_high (v : Q) : (1 <= v)%Q -> (clampQ v 0 1 == 1)%Q.
Proof.
  intros Hv. unfold clampQ.
  rewrite Q.max_l by (eapply Qle_trans; [| exact Hv]; discriminate).
  now apply Q.min_r.
Qed.

Lemma usableHeight_positive (rect : DOMRect) :
  (0 < Qmax 1 (height rect - (8 + 8)))%Q.
Proof. eapply Qlt_le_trans; [| apply Q.le_max_l]. reflexivity. Qed.

(** X4.  For a track element and a window with [startHour <= endHour],
    [getMinutesFromElement] returns a minute on the 15-minute grid that
    starts at the window start, never before the window start and never
    after the window end.  A pointer at or above the padded top gives the
    window start, one at or below the padded bottom the window end; a
    missing element gives no minute. *)
Theorem getMinutesFromElement_on_grid (startHour endHour : Z) (clientY : Q)
    (rect : DOMRect) :
  startHour <= endHour ->
  (exists k,
      getMinutesFromElement startHour endHour clientY (Some rect)
        = Some (startHour * 60 + 15 * k)
      /\ 0 <= k <= 4 * (endHour - startHour)
      /\ startHour * 60 <= startHour * 60 + 15 * k <= endHour * 60)
  /\ ((clientY <= top rect + 8)%Q ->
      getMinutesFromElement startHour endHour clientY (Some rect)
        = Some (startHour * 60))
  /\ ((top rect + 8 + Qmax 1 (height rect - (8 + 8)) <= clientY)%Q ->
      getMinutesFromElement startHour endHour clientY (Some rect)
        = Some (endHour * 60))
  /\ getMinutesFromElement startHour endHour clientY None = None.
Proof.
  intros Hwin. unfold getMinutesFromElement. cbv zeta.
  set (uh := Qmax 1 (height rect - (8 + 8))).
  pose proof (usableHeight_positive rect) as Huh. fold uh in Huh.
  set (ratio := clampQ ((clientY - (top rect + 8)) / uh) 0 1).
  set (total := (endHour - startHour) * 60).
  assert (Htotal : (0 <= inject_Z total)%Q)
    by (rewrite <- (Zle_Qle 0); unfold total; lia).
  assert (Hgrid : total = 15 * (4 * (endHour - startHour)))
    by (unfold total; lia).
  destruct (clampQ_unit ((clientY - (top rect + 8)) / uh)) as [Hr0 Hr1].
  fold ratio in Hr0, Hr1.
  assert (Hx0 : (inject_Z (15 * 0) <= ratio * inject_Z total)%Q)
    by (apply Qmult_le_0_compat; assumption).
  assert (Hx1 : (ratio * inject_Z total
                 <= inject_Z (15 * (4 * (endHour - startHour))))%Q).
  { rewrite <- Hgrid.
    pose proof (Qmult_le_compat_r ratio 1 (inject_Z total) Hr1 Htotal) as H.
    now rewrite Qmult_1_l in H. }
  split; [| split; [| split; [| reflexivity]]].
  - destruct (roundToStep_between _ _ _ Hx0 Hx1) as (k & -> & Hk).
    exists k. split; [reflexivity |]. split; lia.
  - intros Hy.
    assert (Hz : (ratio == 0)%Q).
    { apply clampQ_low. apply Qle_shift_div_r; [assumption |]. lra. }
    assert (Hlo : (ratio * inject_Z total <= inject_Z (15 * 0))%Q)
      by (rewrite Hz; change (inject_Z (15 * 0)) with 0%Q; lra).
    destruct (roundToStep_between _ _ _ Hx0 Hlo) as (k & -> & Hk).
    f_equal. lia.
  - intros Hy.
    assert (Hz : (ratio == 1)%Q).
    { apply clampQ_high. apply Qle_shift_div_l; [assumption |]. lra. }
    assert (Hhi : (inject_Z (15 * (4 * (endHour - startHour)))
                   <= ratio * inject_Z total)%Q)
      by (rewrite Hz, <- Hgrid; lra).
    destruct (roundToStep_between _ _ _ Hhi Hx1) as (k & -> & Hk).
    f_equal. lia.
Qed.

Lemma getMinutesFromElement_on_grid_witness :
  exists k,
    getMinutesFromElement 5 23 100 (Some sampleTrack) = Some (5 * 60 + 15 * k)
    /\ 0 <= k <= 4 * (23 - 5)
    /\ 5 * 60 <= 5 * 60 + 15 * k <= 23 * 60.
Proof.
  exact (proj1 (getMinutesFromElement_on_grid 5 23 100 sampleTrack
                  ltac:(lia))).
Defined.

(** *** Removing an activity *)

Lemma removeActivity_In (target : string) (prev : list WeekendActivity)
    (b : WeekendActivity) :
  In b (fst (removeActivity target prev)) <-> In b prev /\ id b <> target.
Proof.
  unfold removeActivity. cbn [fst]. rewrite filter_In, negb_true_iff.
  now rewrite String.eqb_neq.
Qed.

Lemma filter_all {A : Type} (p : A -> bool) (l : list A) :
  (forall a, In a l -> p a = true) -> List.filter p l = l.
Proof.
  induction l as [| a l IH]; intros H; [reflexivity |].
  cbn [List.filter]. rewrite (H a (or_introl eq_refl)).
  f_equal. apply IH. intros b Hb. apply H. now right.
Qed.

Lemma filter_twice {A : Type} (p : A -> bool) (l : list A) :
  List.filter p (List.filter p l) = List.filter p l.
Proof. apply filter_all. intros a Ha. now apply filter_In in Ha. Qed.

(** X5.  [removeActivity] keeps exactly the activities with another id, in
    their order and as often as they occur: it works activity by activity,
    dropping one activity with the target id and keeping one with another
    id, and over a list put together from two parts it gives the two
    results put together.  An id that no activity has leaves the list as
    it is, and removing the same id twice is removing it once. *)
Theorem removeActivity_removes_id (target : string)
    (prev : list WeekendActivity) :
  (forall b, In b (fst (removeActivity target prev))
             <-> In b prev /\ id b <> target)
  /\ (forall a, id a = target -> fst (removeActivity target [a]) = [])
  /\ (forall a, id a <> target -> fst (removeActivity target [a]) = [a])
  /\ (forall l1 l2,
        fst (removeActivity target (l1 ++ l2))
        = fst (removeActivity target l1) ++ fst (removeActivity target l2))
  /\ ((forall a, In a prev -> id a <> target) ->
      fst (removeActivity target prev) = prev)
  /\ fst (removeActivity target (fst (removeActivity target prev)))
     = fst (removeActivity target prev).
Proof.
  split; [intros b; apply removeActivity_In |].
  split.
  { intros a Ha. unfold removeActivity. cbn [fst List.filter].
    apply String.eqb_eq in Ha. now rewrite Ha. }
  split.
  { intros a Ha. unfold removeActivity. cbn [fst List.filter].
    apply String.eqb_neq in Ha. now rewrite Ha. }
  split.
  { intros l1 l2. unfold removeActivity. cbn [fst]. apply List.filter_app. }
  split.
  - intros Habsent. unfold removeActivity. cbn [fst]. apply filter_all.
    intros a Ha. apply negb_true_iff, String.eqb_neq. now apply Habsent.
  - unfold removeActivity. cbn [fst]. apply filter_twice.
Qed.

(** *** No double booking *)


Lemma overlap_sym (a b : WeekendActivity) : overlap a b -> overlap b a.
Proof.
  intros (s1 & s2 & d1 & d2 & E1 & E2 & D1 & D2 & H1 & H2).
  exists s2, s1, d2, d1. auto 7.
Qed.

Lemma map_id_replaceById (target : string) (r : WeekendActivity)
    (prev : list WeekendActivity) :
  id r = target -> List.map id (replaceById target r prev) = List.map id prev.
Proof.
  intros Hr. unfold replaceById. rewrite List.map_map.
  apply List.map_ext. intros a.
  destruct (String.eqb_spec (id a) target); congruence.
Qed.





Lemma find_id (target : string) (prev : list WeekendActivity)
    (found : WeekendActivity) :
  List.find (fun a => String.eqb (id a) target) prev = Some found ->
  In found prev /\ id found = target.
Proof.
  intros H. apply find_some in H as [Hin E]. now apply String.eqb_eq in E.
Qed.




(** *** What a drop or an edit does to the list *)

Lemma map_id_filter (target : string) (prev : list WeekendActivity) :
  List.map id (List.filter (fun a => negb (String.eqb (id a) target)) prev)
  = List.filter (fun i => negb (String.eqb i target)) (List.map id prev).
Proof.
  induction prev as [| a l IH]; [reflexivity |].
  cbn [List.filter List.map]. destruct (negb (String.eqb (id a) target));
    cbn [List.map]; now rewrite IH.
Qed.

(** X7.  Only [removeActivity] deletes.  A drop leaves the sequence of ids
    as it was or appends the new id at the end; an edit leaves it as it
    was, also when no activity has the draft's id; a removal deletes the
    target id and nothing else. *)
Theorem handlers_keep_ids (startHour endHour : Z)
    (prev : list WeekendActivity) :
  (forall e day' newId,
      List.map id (fst (handleDrop startHour endHour e day' newId prev))
        = List.map id prev
      \/ List.map id (fst (handleDrop startHour endHour e day' newId prev))
         = List.map id prev ++ [newId])
  /\ (forall draft, List.map id (fst (saveEdit draft prev)) = List.map id prev)
  /\ (forall target,
        List.map id (fst (removeActivity target prev))
        = List.filter (fun i => negb (String.eqb i target)) (List.map id prev)).
Proof.
  split; [| split].
  - intros e day' newId. unfold handleDrop.
    destruct (getMinutesFromElement _ _ _ _) as [mins |]; [| now left].
    destruct (negb _).
    + destruct (List.find _ prev) as [found |] eqn:Hf; [| now left].
      destruct (hasConflict _ _ _); [now left |]. cbn [fst]. left.
      apply map_id_replaceById. cbn [movedActivity id].
      now apply find_id in Hf.
    + destruct (external e) as [| | payload]; try now left.
      destruct (_ || _); [now left |].
      destruct (hasConflict _ _ _); [now left |]. cbn [fst]. right.
      now rewrite List.map_app.
  - intros draft. unfold saveEdit. destruct draft as [d |]; [| reflexivity].
    destruct (hasConflict _ _ _); [reflexivity |]. cbn [fst].
    now apply map_id_replaceById.
  - intros target. apply map_id_filter.
Qed.




(** *** Conflicts over parts of the list *)

(** X9.  [hasConflict] looks at each activity on its own: over a list put
    together from two parts it answers true exactly when it does on one of
    the parts, an activity of the other day or with the excluded id never
    makes a conflict, and two activities conflict with each other in both
    directions or in none. *)
Theorem hasConflict_by_parts (c : WeekendActivity) (ex : option string) :
  (forall l1 l2,
      hasConflict (l1 ++ l2) c ex = hasConflict l1 c ex || hasConflict l2 c ex)
  /\ (forall a l, day a <> day c -> hasConflict (a :: l) c ex = hasConflict l c ex)
  /\ (forall a l, ex = Some (id a) ->
                  hasConflict (a :: l) c ex = hasConflict l c ex)
  /\ (forall a, hasConflict [a] c None = hasConflict [c] a None).
Proof.
  split; [| split; [| split]].
  - intros l1 l2. unfold hasConflict.
    now rewrite List.filter_app, existsb_app.
  - intros a l Hday. unfold hasConflict. cbn [List.filter].
    rewrite (bool_decide_eq_false_2 _ Hday). reflexivity.
  - intros a l ->. unfold hasConflict. cbn [List.filter].
    rewrite (bool_decide_eq_false_2 (Some (id a) <> Some (id a)))
      by (intros H; now apply H).
    now rewrite andb_false_r.
  - intros a.
    destruct (hasConflict [a] c None) eqn:H1, (hasConflict [c] a None) eqn:H2;
      try reflexivity.
    + apply hasConflict_spec in H1 as (x & [<- | []] & Hday & _ & Hov).
      rewrite hasConflict_false_iff in H2.
      destruct (H2 c (or_introl eq_refl)); [now symmetry | discriminate |].
      now apply overlap_sym.
    + apply hasConflict_spec in H2 as (x & [<- | []] & Hday & _ & Hov).
      rewrite hasConflict_false_iff in H1.
      destruct (H1 a (or_introl eq_refl)); [now symmetry | discriminate |].
      now apply overlap_sym.
Qed.

(** *** Normal forms *)

Lemma normalizeTime_is_timeText (val : string) :
  exists h m,
    0 <= h <= 23 /\ 0 <= m <= 59 /\ normalizeTime val = timeText h m.
Proof. apply normalizeTime_valid. Qed.

Lemma normalizeTime_fixes_timeText (h m : Z) :
  0 <= h <= 23 -> 0 <= m <= 59 -> normalizeTime (timeText h m) = timeText h m.
Proof.
  intros Hh Hm.
  destruct (timeText_isTimeText h m) as (Hval & Hvh & Hvm); try lia.
  rewrite (normalizeTime_timeText _ _ _ Hval), Hvh, Hvm.
  now rewrite !Z.min_l by lia.
Qed.

(** X10.  [normalizeTime] always returns a text of the time format that
    [toMinutes] reads as a minute of the day, from 0 to 1439, and
    normalizing a normalized text changes nothing. *)
Theorem normalizeTime_normal_form (val : string) :
  matchesTimeFormat (normalizeTime val) = true
  /\ (exists t, toMinutes (normalizeTime val) = Some t /\ 0 <= t <= 1439)
  /\ normalizeTime (normalizeTime val) = normalizeTime val.
Proof.
  destruct (normalizeTime_is_timeText val) as (h & m & Hh & Hm & ->).
  destruct (timeText_isTimeText h m) as (Hval & _); try lia.
  split; [exact (isTimeText_matches _ _ _ Hval) |].
  split; [| now apply normalizeTime_fixes_timeText].
  exists (h * 60 + m). split; [apply toMinutes_timeText; lia | lia].
Qed.











End ScheduleMore.

(* ===================================================================== *)
(** ** The planner page: history, catalog additions, calendar helpers    *)
(* ===================================================================== *)

Module Page.

Import JS.
Import Schedule.

(** *** The mirrored schedule *)



(** *** Additions from the activity browser *)










(** *** Calendar text *)

(** [text.replace(/c/g, by)] for a pattern of one character. *)
Fixpoint replaceChar (c : ascii) (by_ : string) (text : string) : string :=
  match text with
  | EmptyString => EmptyString
  | String x rest =>
      if Ascii.eqb x c then String.append by_ (replaceChar c by_ rest)
      else String x (replaceChar c by_ rest)
  end.

Definition backslash : ascii := ascii_of_nat 92.
Definition lineFeed : ascii := ascii_of_nat 10.

Definition escapeIcs (text : string) : string :=
  replaceChar ";" (String backslash (String ";" EmptyString))
    (replaceChar "," (String backslash (String "," EmptyString))
       (replaceChar lineFeed (String backslash (String "n" EmptyString))
          (replaceChar backslash (String backslash (String backslash EmptyString))
             text))).

(** *** The upcoming weekend *)

(** A [Date] is modelled by its local calendar day, counted from 1 January
    1970, a Thursday: [setDate] moves by calendar days and
    [setHours(0, 0, 0, 0)] drops the time of day. *)
Definition getDay (date : Z) : Z := (date + 4) mod 7.

Record Weekend := { sat : Z; sun : Z }.

Definition getUpcomingWeekend (now : Z) : Weekend :=
  let day := getDay now in
  let diffToSat := rem (6 - day + 7) 7 in
  let diffToSun := rem (7 - day + 7) 7 in
  {| sat := now + diffToSat; sun := now + diffToSun |}.

End Page.

(* ===================================================================== *)
(** ** Facts about the planner page                                       *)
(* ===================================================================== *)

Module PageFacts.

Import JS.
Import Schedule.
Import Page.

(** *** Additions from the browser *)



(** *** Calendar text *)

(** What [escapeIcs] makes of one character. *)
Definition escapeChar (c : ascii) : string :=
  if Ascii.eqb c backslash then String backslash (String backslash EmptyString)
  else if Ascii.eqb c lineFeed then String backslash (String "n" EmptyString)
  else if Ascii.eqb c "," then String backslash (String "," EmptyString)
  else if Ascii.eqb c ";" then String backslash (String ";" EmptyString)
  else String c EmptyString.

(** Reads an escaped text back: a backslash stands with the character after
    it for one character. *)
Fixpoint unescapeIcs (s : string) : string :=
  match s with
  | EmptyString => EmptyString
  | String c rest =>
      if Ascii.eqb c backslash then
        match rest with
        | String d rest' =>
            String (if Ascii.eqb d "n" then lineFeed else d) (unescapeIcs rest')
        | EmptyString => String c EmptyString
        end
      else String c (unescapeIcs rest)
  end.

Lemma append_step (c : ascii) (s t : string) :
  String.append (String c s) t = String c (String.append s t).
Proof. reflexivity. Qed.

Lemma append_assoc (a b c : string) :
  String.append (String.append a b) c = String.append a (String.append b c).
Proof.
  induction a as [| x a IH]; [reflexivity |].
  now rewrite !append_step, IH.
Qed.

Lemma replaceChar_app (c : ascii) (by_ a b : string) :
  replaceChar c by_ (String.append a b)
  = String.append (replaceChar c by_ a) (replaceChar c by_ b).
Proof.
  induction a as [| x a IH]; [reflexivity |].
  rewrite append_step. cbn [replaceChar].
  destruct (Ascii.eqb x c); rewrite IH; [now rewrite append_assoc | reflexivity].
Qed.

Lemma escapeIcs_app (a b : string) :
  escapeIcs (String.append a b)
  = String.append (escapeIcs a) (escapeIcs b).
Proof. unfold escapeIcs. now rewrite !replaceChar_app. Qed.

Lemma escapeIcs_one (c : ascii) : escapeIcs (String c EmptyString) = escapeChar c.
Proof.
  unfold escapeChar.
  destruct (Ascii.eqb_spec c backslash) as [-> | H1]; [reflexivity |].
  destruct (Ascii.eqb_spec c lineFeed) as [-> | H2]; [reflexivity |].
  destruct (Ascii.eqb_spec c ",") as [-> | H3]; [reflexivity |].
  destruct (Ascii.eqb_spec c ";") as [-> | H4]; [reflexivity |].
  apply Ascii.eqb_neq in H1, H2, H3, H4.
  unfold escapeIcs. cbn [replaceChar]. rewrite H1.
  cbn [replaceChar]. rewrite H2.
  cbn [replaceChar]. rewrite H3.
  cbn [replaceChar]. now rewrite H4.
Qed.

Lemma escapeIcs_cons (c : ascii) (rest : string) :
  escapeIcs (String c rest) = String.append (escapeChar c) (escapeIcs rest).
Proof.
  change (String c rest) with (String.append (String c EmptyString) rest).
  now rewrite escapeIcs_app, escapeIcs_one.
Qed.

Lemma unescapeIcs_escapeChar (c : ascii) (rest : string) :
  unescapeIcs (String.append (escapeChar c) rest) = String c (unescapeIcs rest).
Proof.
  unfold escapeChar.
  destruct (Ascii.eqb_spec c backslash) as [-> | H1]; [reflexivity |].
  destruct (Ascii.eqb_spec c lineFeed) as [-> | H2]; [reflexivity |].
  destruct (Ascii.eqb_spec c ",") as [-> | H3]; [reflexivity |].
  destruct (Ascii.eqb_spec c ";") as [-> | H4]; [reflexivity |].
  rewrite append_step. cbn [unescapeIcs].
  apply Ascii.eqb_neq in H1. now rewrite H1.
Qed.

Lemma unescapeIcs_escapeIcs (s : string) : unescapeIcs (escapeIcs s) = s.
Proof.
  induction s as [| c s IH]; [reflexivity |].
  now rewrite escapeIcs_cons, unescapeIcs_escapeChar, IH.
Qed.

Lemma escapeChar_no_lineFeed (c : ascii) :
  ~ In lineFeed (list_ascii_of_string (escapeChar c)).
Proof.
  unfold escapeChar.
  destruct (Ascii.eqb_spec c backslash) as [-> | H1];
    [cbn; intros [H | [H | []]]; discriminate H |].
  destruct (Ascii.eqb_spec c lineFeed) as [-> | H2];
    [cbn; intros [H | [H | []]]; discriminate H |].
  destruct (Ascii.eqb_spec c ",") as [-> | H3];
    [cbn; intros [H | [H | []]]; discriminate H |].
  destruct (Ascii.eqb_spec c ";") as [-> | H4];
    [cbn; intros [H | [H | []]]; discriminate H |].
  cbn. intros [H | []]. now apply H2.
Qed.

Lemma list_ascii_of_append (a b : string) :
  list_ascii_of_string (String.append a b)
  = list_ascii_of_string a ++ list_ascii_of_string b.
Proof.
  induction a as [| x a IH]; [reflexivity |].
  rewrite append_step. cbn [list_ascii_of_string app]. now rewrite IH.
Qed.

(** X15.  [escapeIcs] escapes character by character, so the escaped text
    of two texts put together is the two escaped texts put together; the
    escaped text holds no line feed, so a title or a note never breaks a
    line of the calendar file; and different texts have different escaped
    texts, since each escaped text reads back as the text it came from. *)
Theorem escapeIcs_faithful :
  (forall a b,
      escapeIcs (String.append a b)
      = String.append (escapeIcs a) (escapeIcs b))
  /\ (forall c rest,
        escapeIcs (String c rest)
        = String.append (escapeChar c) (escapeIcs rest))
  /\ (forall s, ~ In lineFeed (list_ascii_of_string (escapeIcs s)))
  /\ (forall s, unescapeIcs (escapeIcs s) = s)
  /\ (forall s t, escapeIcs s = escapeIcs t -> s = t).
Proof.
  split; [exact escapeIcs_app |]. split; [exact escapeIcs_cons |].
  split; [| split; [exact unescapeIcs_escapeIcs |]].
  - induction s as [| c s IH]; [intros [] |].
    rewrite escapeIcs_cons, list_ascii_of_append. intros H.
    apply in_app_iff in H as [H | H]; [| now apply IH].
    now apply (escapeChar_no_lineFeed c).
  - intros s t H.
    rewrite <- (unescapeIcs_escapeIcs s), <- (unescapeIcs_escapeIcs t).
    now rewrite H.
Qed.

(** *** The upcoming weekend *)

(** X16.  [getUpcomingWeekend] returns a Saturday and a Sunday, each of
    them today or one of the six days after today.  On every day but a
    Sunday the Sunday is the day after the Saturday; on a Sunday the Sunday
    is today and the Saturday lies six days ahead, after the Sunday. *)
Theorem getUpcomingWeekend_days (now : Z) :
  let w := getUpcomingWeekend now in
  getDay (sat w) = 6 /\ getDay (sun w) = 0
  /\ now <= sat w <= now + 6 /\ now <= sun w <= now + 6
  /\ (getDay now <> 0 -> sun w = sat w + 1)
  /\ (getDay now = 0 -> sun w = now /\ sat w = now + 6).
Proof.
  cbv zeta. unfold getUpcomingWeekend, getDay, rem. cbn [sat sun].
  pose proof (Z.mod_pos_bound (now + 4) 7 ltac:(lia)) as Hday.
  pose proof (Z.div_mod (now + 4) 7 ltac:(lia)) as Hdiv.
  remember ((now + 4) mod 7) as day eqn:Eday.
  rewrite !Z.rem_mod_nonneg by lia.
  assert (Hshift : forall k, (now + k + 4) mod 7 = (day + k) mod 7).
  { intros k. replace (now + k + 4) with (day + k + (now + 4) / 7 * 7) by lia.
    apply Z.mod_add. lia. }
  rewrite !Hshift. clear Hshift Hdiv Eday.
  assert (Hcase : day = 0 \/ day = 1 \/ day = 2 \/ day = 3 \/ day = 4
                  \/ day = 5 \/ day = 6) by lia.
  clear Hday.
  destruct Hcase as [-> | [-> | [-> | [-> | [-> | [-> | ->]]]]]];
    repeat match goal with
           | |- context [?a mod 7] =>
               let v := eval vm_compute in (a mod 7) in
               change (a mod 7) with v
           end;
    repeat split; intros; try lia; try reflexivity.
Qed.

End PageFacts.

(* ===================================================================== *)
(** ** More about the viewport window                                     *)
(* ===================================================================== *)

Module VirtualMore.

Import JS.
Import Virtual.
Import VirtualFacts.





Lemma nth_error_seq_value (len a k j : nat) :
  nth_error (seq a len) k = Some j -> j = (a + k)%nat /\ (k < len)%nat.
Proof.
  revert a k. induction len as [| len IH]; intros a k H.
  - destruct k; discriminate H.
  - destruct k as [| k]; cbn in H.
    + injection H as <-. lia.
    + apply IH in H. lia.
Qed.

Lemma nth_error_loopRange (lo hi : Z) (k : nat) (i : Z) :
  nth_error (loopRange lo hi) k = Some i -> i = lo + Z.of_nat k.
Proof.
  unfold loopRange. rewrite nth_error_map.
  destruct (nth_error (seq 0 (Z.to_nat (hi - lo + 1))) k) as [j |] eqn:E;
    [| discriminate].
  cbn. intros H. injection H as <-.
  apply nth_error_seq_value in E. lia.
Qed.

(** X18.  The items [useVirtualization] returns lie end to end in index
    order: of two neighbours in the result the second has the next index
    and starts at the offset where the first ends.  Below the threshold the
    last item ends at [totalHeight]. *)
Theorem useVirtualization_end_to_end {T : Type} (items : list T)
    (config : VirtualizationConfig) (scrollOffset : Q) :
  (forall k a b,
      nth_error (useVirtualization items config scrollOffset) k = Some a ->
      nth_error (useVirtualization items config scrollOffset) (S k) = Some b ->
      index b = index a + 1 /\ start b = end_ a)
  /\ (Z.of_nat (List.length items) <= default 50 (threshold config) ->
      forall a,
        List.last (List.map Some (useVirtualization items config scrollOffset))
          None = Some a ->
        end_ a = totalHeight items config).
Proof.
  split.
  - intros k a b Ha Hb.
    assert (Hidx : exists i, a = itemAt (itemHeight config) i
                             /\ b = itemAt (itemHeight config) (i + 1)).
    { unfold useVirtualization in Ha, Hb.
      destruct (negb _).
      - rewrite nth_error_map in Ha, Hb.
        destruct (nth_error (seq 0 (List.length items)) k) as [i |] eqn:Ei;
          [| discriminate].
        destruct (nth_error (seq 0 (List.length items)) (S k)) as [j |] eqn:Ej;
          [| discriminate].
        apply nth_error_seq_value in Ei, Ej.
        cbn in Ha, Hb. injection Ha as <-. injection Hb as <-.
        exists (Z.of_nat i). split; [reflexivity |]. f_equal. lia.
      - rewrite nth_error_map in Ha, Hb.
        destruct (nth_error (loopRange _ _) k) as [i |] eqn:Ei; [| discriminate].
        destruct (nth_error (loopRange _ _) (S k)) as [j |] eqn:Ej;
          [| discriminate].
        apply nth_error_loopRange in Ei, Ej.
        cbn in Ha, Hb. injection Ha as <-. injection Hb as <-.
        exists i. split; [reflexivity |]. f_equal. lia. }
    destruct Hidx as (i & -> & ->). cbn [itemAt index start end_].
    split; reflexivity.
  - intros Hn a Hlast.
    rewrite (useVirtualization_small items config scrollOffset Hn) in Hlast.
    unfold totalHeight.
    destruct (List.length items) as [| n]; [discriminate Hlast |].
    rewrite seq_S, !List.map_app in Hlast. cbn [List.map] in Hlast.
    rewrite last_last in Hlast. injection Hlast as <-.
    cbn [itemAt end_]. f_equal. f_equal. lia.
Qed.

End VirtualMore.

(* ===================================================================== *)
(** ** The timeline window: items of different heights                    *)
(* ===================================================================== *)

Module Timeline.

Import JS.

Record TimelineConfig := {
  containerHeight : Q;
  minItemHeight : Q;
  maxItemHeight : Q;
  threshold : option Z;      (* default 30 *)
}.

(** [activity.notes && activity.notes.length > 50]. *)
Definition longNotes (a : Schedule.WeekendActivity) : bool :=
  match Schedule.notes a with
  | Some text => (50 <? String.length text)%nat
  | None => false
  end.

Definition calculateItemHeight (config : TimelineConfig)
    (activity : Schedule.WeekendActivity) : Q :=
  let baseHeight := minItemHeight config in
  let baseHeight := if longNotes activity then (baseHeight + 20)%Q else baseHeight in
  let baseHeight :=
    if Schedule.isSome (Schedule.mood activity) then (baseHeight + 15)%Q
    else baseHeight in
  let baseHeight :=
    if JS.lt (Some 120) (Schedule.durationMins activity)
    then (baseHeight + 10)%Q
    else baseHeight in
  Qmin (Qmax baseHeight (minItemHeight config)) (maxItemHeight config).

(** [heights.reduce((sum, height) => sum + height, 0)]. *)
Definition sumHeights (heights : list Q) : Q := fold_left Qplus heights 0%Q.

(** [itemHeights[i] || minItemHeight]: a missing or zero height counts as
    the minimum. *)
Definition heightAt (itemHeights : list Q) (config : TimelineConfig)
    (i : nat) : Q :=
  match nth_error itemHeights i with
  | Some h => if Qeq_bool h 0 then minItemHeight config else h
  | None => minItemHeight config
  end.

(** The heights the loops read, for the indices 0 .. n-1. *)
Definition resolvedHeights (n : nat) (itemHeights : list Q)
    (config : TimelineConfig) : list Q :=
  List.map (heightAt itemHeights config) (seq 0 n).

(** [a > b] on heights and offsets. *)
Definition above (a b : Q) : bool := negb (Qle_bool a b).

(** The first loop: the first index [i] with
    [currentOffset + itemHeight > scrollOffset]. *)
Fixpoint findStart (heights : list Q) (i : Z) (currentOffset scrollOffset : Q)
    : option Z :=
  match heights with
  | [] => None
  | itemHeight :: rest =>
      if above (currentOffset + itemHeight) scrollOffset then Some i
      else findStart rest (i + 1) (currentOffset + itemHeight) scrollOffset
  end.

(** The second loop: the first index [i] at which the offset, the item
    included, is above the end of the viewport. *)
Fixpoint findEnd (heights : list Q) (i : Z) (currentOffset viewportEnd : Q)
    : option Z :=
  match heights with
  | [] => None
  | itemHeight :: rest =>
      if above (currentOffset + itemHeight) viewportEnd then Some i
      else findEnd rest (i + 1) (currentOffset + itemHeight) viewportEnd
  end.

(** The third loop: every item is laid out, the items from [startIndex] to
    [endIndex] are pushed. *)
Fixpoint layout (heights : list Q) (i : Z) (offset : Q)
    (startIndex endIndex : Z) : list Virtual.VirtualItem :=
  match heights with
  | [] => []
  | itemHeight :: rest =>
      let tail := layout rest (i + 1) (offset + itemHeight) startIndex endIndex in
      if (startIndex <=? i) && (i <=? endIndex)
      then {| Virtual.index := i; Virtual.start := offset;
              Virtual.end_ := (offset + itemHeight)%Q;
              Virtual.size := itemHeight |} :: tail
      else tail
  end.

Definition startIndexOf (heights : list Q) (scrollOffset : Q) : Z :=
  match findStart heights 0 0 scrollOffset with
  | Some i => Z.max 0 (i - 5)
  | None => 0
  end.

Definition endIndexOf (n : nat) (heights : list Q) (viewportEnd : Q) : Z :=
  match findEnd heights 0 0 viewportEnd with
  | Some i => Z.min (Z.of_nat n - 1) (i + 5)
  | None => Z.of_nat n - 1
  end.

(** The memoized [virtualItems] of [useTimelineVirtualization], for the
    current [itemHeights] and [scrollOffset] states. *)
Definition useTimelineVirtualization (activities : list Schedule.WeekendActivity)
    (config : TimelineConfig) (itemHeights : list Q) (scrollOffset : Q)
    : list Virtual.VirtualItem :=
  let threshold' := default 30 (threshold config) in
  let n := List.length activities in
  let shouldVirtualize := threshold' <? Z.of_nat n in
  if negb shouldVirtualize then
    List.map
      (fun index =>
         {| Virtual.index := Z.of_nat index;
            Virtual.start := sumHeights (firstn index itemHeights);
            Virtual.end_ := sumHeights (firstn (index + 1) itemHeights);
            Virtual.size := heightAt itemHeights config index |})
      (seq 0 n)
  else
    let heights := resolvedHeights n itemHeights config in
    layout heights 0 0
      (startIndexOf heights scrollOffset)
      (endIndexOf n heights (scrollOffset + containerHeight config)).

(** The effect that measures: [activities.map(calculateItemHeight)]. *)
Definition measuredHeights (activities : list Schedule.WeekendActivity)
    (config : TimelineConfig) : list Q :=
  List.map (calculateItemHeight config) activities.

End Timeline.

Module TimelineFacts.

Import JS. Import Timeline.

Local Open Scope Q_scope.

Lemma above_true (a b : Q) : above a b = true <-> b < a.
Proof.
unfold above. rewrite negb_true_iff.
split.
- intros H. apply Qnot_le_lt. intros Hle.
  apply Qle_bool_iff in Hle. congruence.
- intros H. destruct (Qle_bool a b) eqn:E; [|reflexivity].
  apply Qle_bool_iff in E. lra.
Qed.

Lemma above_false (a b : Q) : above a b = false <-> a <= b.
Proof.
unfold above. rewrite negb_false_iff. apply Qle_bool_iff.
Qed.

(** The offset of the item at position [k]: the heights before it, added
    in order to the offset the loop started from. *)
Definition offsetAt (heights : list Q) (from : Q) (k : nat) : Q :=
fold_left Qplus (firstn k heights) from.

Lemma offsetAt_cons (h : Q) (rest : list Q) (from : Q) (k : nat) :
  offsetAt (h :: rest) from (S k) = offsetAt rest (from + h) k.
Proof. reflexivity. Qed.

Lemma offsetAt_ge (heights : list Q) :
  Forall (fun h => 0 <= h) heights ->
  forall from k, from <= offsetAt heights from k.
Proof.
induction 1 as [|h rest Hh _ IH]; intros from k.
- destruct k; cbn; lra.
- destruct k as [|k]; [cbn; lra|].
  rewrite offsetAt_cons. specialize (IH (from + h) k). lra.
Qed.

Lemma findStart_first (heights : list Q) (scrollOffset : Q) :
  forall (i : Z) (from : Q) (k : nat) (h : Q),
    nth_error heights k = Some h ->
    scrollOffset < offsetAt heights from k + h ->
    exists j, findStart heights i from scrollOffset = Some j
              /\ (i <= j <= i + Z.of_nat k)%Z.
Proof.
induction heights as [|h0 rest IH]; intros i from k h Hk Hlt.
- destruct k; discriminate.
- cbn [findStart].
  destruct (above (from + h0) scrollOffset) eqn:E.
  + exists i. split; [reflexivity|lia].
  + apply above_false in E.
    destruct k as [|k].
    * cbn in Hk. injection Hk as <-. cbn in Hlt. lra.
    * cbn [nth_error] in Hk. rewrite offsetAt_cons in Hlt.
      destruct (IH (i + 1)%Z (from + h0) k h Hk Hlt) as (j & Hj & Hr).
      exists j. split; [exact Hj|lia].
Qed.

Lemma findEnd_from (heights : list Q) (viewportEnd : Q) :
  forall (i : Z) (from : Q) (j : Z),
    findEnd heights i from viewportEnd = Some j -> (i <= j)%Z.
Proof.
induction heights as [|h0 rest IH]; intros i from j H; [discriminate|].
cbn [findEnd] in H.
destruct (above (from + h0) viewportEnd).
- injection H as <-. lia.
- apply IH in H. lia.
Qed.

Lemma findEnd_last (heights : list Q) (viewportEnd : Q) :
  Forall (fun h => 0 <= h) heights ->
  forall (i : Z) (from : Q) (j : Z) (k : nat),
    findEnd heights i from viewportEnd = Some j ->
    (k < List.length heights)%nat ->
    offsetAt heights from k < viewportEnd ->
    (i + Z.of_nat k <= j)%Z.
Proof.
induction 1 as [|h0 rest Hh Hrest IH]; intros i from j k Hj Hk Hlt.
- discriminate.
- cbn [findEnd] in Hj.
  destruct (above (from + h0) viewportEnd) eqn:E.
  + injection Hj as <-. apply above_true in E.
    destruct k as [|k]; [lia|].
    rewrite offsetAt_cons in Hlt.
    pose proof (offsetAt_ge rest Hrest (from + h0) k). lra.
  + destruct k as [|k].
    * apply findEnd_from in Hj. lia.
    * rewrite offsetAt_cons in Hlt. cbn [List.length] in Hk.
      specialize (IH (i + 1)%Z (from + h0) j k Hj ltac:(lia) Hlt). lia.
Qed.

Lemma layout_In (heights : list Q) (startIndex endIndex : Z) :
  forall (i : Z) (from : Q) (it : Virtual.VirtualItem),
    In it (layout heights i from startIndex endIndex) <->
    exists (k : nat) (h : Q),
      nth_error heights k = Some h
      /\ (startIndex <= i + Z.of_nat k <= endIndex)%Z
      /\ it = {| Virtual.index := (i + Z.of_nat k)%Z;
                 Virtual.start := offsetAt heights from k;
                 Virtual.end_ := offsetAt heights from k + h;
                 Virtual.size := h |}.
Proof.
induction heights as [|h0 rest IH]; intros i from it.
- cbn. split; [tauto|]. intros (k & h & Hk & _). destruct k; discriminate.
- cbn [layout].
  assert (Hrest :
    In it (layout rest (i + 1) (from + h0) startIndex endIndex) <->
    exists (k : nat) (h : Q),
      nth_error (h0 :: rest) (S k) = Some h
      /\ (startIndex <= i + Z.of_nat (S k) <= endIndex)%Z
      /\ it = {| Virtual.index := (i + Z.of_nat (S k))%Z;
                 Virtual.start := offsetAt (h0 :: rest) from (S k);
                 Virtual.end_ := offsetAt (h0 :: rest) from (S k) + h;
                 Virtual.size := h |}).
  { rewrite IH. split; intros (k & h & Hk & Hr & ->); exists k, h;
      (split; [exact Hk|]);
      replace (i + Z.of_nat (S k))%Z with (i + 1 + Z.of_nat k)%Z in * by lia;
      (split; [lia|reflexivity]). }
  destruct ((startIndex <=? i)%Z && (i <=? endIndex)%Z) eqn:E.
  + apply andb_true_iff in E. destruct E as [E1 E2].
    apply Z.leb_le in E1, E2.
    cbn [In]. rewrite Hrest. split.
    * intros [<- | (k & h & Hk)].
      -- exists 0%nat, h0. split; [reflexivity|].
         replace (i + Z.of_nat 0)%Z with i by lia.
         split; [lia|reflexivity].
      -- exists (S k), h. exact Hk.
    * intros (k & h & Hk & Hr & ->). destruct k as [|k].
      -- left. cbn in Hk. injection Hk as <-.
         replace (i + Z.of_nat 0)%Z with i by lia. reflexivity.
      -- right. exists k, h. auto.
  + rewrite Hrest. split.
    * intros (k & h & Hk). exists (S k), h. exact Hk.
    * intros (k & h & Hk & Hr & ->). destruct k as [|k].
      -- exfalso. replace (i + Z.of_nat 0)%Z with i in Hr by lia.
         apply andb_false_iff in E.
         destruct E as [E | E]; apply Z.leb_gt in E; lia.
      -- exists k, h. auto.
Qed.

Lemma resolvedHeights_length (n : nat) (itemHeights : list Q)
    (config : TimelineConfig) :
  List.length (resolvedHeights n itemHeights config) = n.
Proof.
unfold resolvedHeights. rewrite List.length_map. apply List.length_seq.
Qed.

Lemma calculateItemHeight_le_max (config : TimelineConfig)
    (activity : Schedule.WeekendActivity) :
  calculateItemHeight config activity <= maxItemHeight config.
Proof. unfold calculateItemHeight. apply Q.le_min_r. Qed.

Lemma calculateItemHeight_ge_min (config : TimelineConfig)
    (activity : Schedule.WeekendActivity) :
  minItemHeight config <= maxItemHeight config ->
  minItemHeight config <= calculateItemHeight config activity.
Proof.
intros H. unfold calculateItemHeight.
apply Q.min_glb; [apply Q.le_max_r|exact H].
Qed.

Lemma firstn_succ {A : Type} (l : list A) :
  forall (k : nat) (x : A),
    nth_error l k = Some x -> firstn (k + 1) l = firstn k l ++ [x].
Proof.
induction l as [|y l IH]; intros k x Hk.
- destruct k; discriminate.
- destruct k as [|k].
  + cbn in Hk. injection Hk as <-. reflexivity.
  + cbn [nth_error] in Hk. cbn [Nat.add firstn]. rewrite (IH k x Hk).
    reflexivity.
Qed.

Lemma sumHeights_succ (heights : list Q) (k : nat) (h : Q) :
  nth_error heights k = Some h ->
  sumHeights (firstn (k + 1) heights) = sumHeights (firstn k heights) + h.
Proof.
intros Hk. unfold sumHeights. rewrite (firstn_succ heights k h Hk).
rewrite fold_left_app. reflexivity.
Qed.

(** A timeline of two sample activities, virtualized from the second one
    on. *)
Definition shortTimeline : list Schedule.WeekendActivity :=
[ScheduleFacts.brunch; ScheduleFacts.museum].

Definition eagerConfig : TimelineConfig :=
{| containerHeight := 300; minItemHeight := 60; maxItemHeight := 120;
   threshold := Some 1%Z |}.

Definition plainConfig : TimelineConfig :=
{| containerHeight := 300; minItemHeight := 60; maxItemHeight := 120;
   threshold := None |}.

(** X19.  [calculateItemHeight] stays between the two configured heights
    when they are in order, and adds at most 45 pixels to the minimum; an
    activity with no mood, notes of at most 50 characters and a duration
    that is no number above 120 gets exactly the minimum. *)
Theorem calculateItemHeight_between (config : TimelineConfig)
    (activity : Schedule.WeekendActivity) :
  minItemHeight config <= maxItemHeight config ->
  minItemHeight config <= calculateItemHeight config activity
  /\ calculateItemHeight config activity <= maxItemHeight config
  /\ calculateItemHeight config activity <= minItemHeight config + 45
  /\ (longNotes activity = false ->
      Schedule.mood activity = None ->
      (forall d, Schedule.durationMins activity = Some d -> (d <= 120)%Z) ->
      calculateItemHeight config activity == minItemHeight config).
Proof.
intros Hmm. split; [apply calculateItemHeight_ge_min; exact Hmm|].
split; [apply calculateItemHeight_le_max|].
split.
- unfold calculateItemHeight.
  set (m := minItemHeight config) in *.
  assert (Hb :
    (if JS.lt (Some 120%Z) (Schedule.durationMins activity)
     then (if Schedule.isSome (Schedule.mood activity)
           then (if longNotes activity then m + 20 else m) + 15
           else (if longNotes activity then m + 20 else m)) + 10
     else (if Schedule.isSome (Schedule.mood activity)
           then (if longNotes activity then m + 20 else m) + 15
           else (if longNotes activity then m + 20 else m))) <= m + 45).
  { destruct (JS.lt (Some 120%Z) (Schedule.durationMins activity)),
      (Schedule.isSome (Schedule.mood activity)), (longNotes activity); lra. }
  eapply Qle_trans; [apply Q.le_min_l|].
  apply Q.max_lub; [exact Hb|lra].
- intros Hn Hmood Hd. unfold calculateItemHeight.
  rewrite Hn, Hmood. cbn [Schedule.isSome].
  assert (E : JS.lt (Some 120%Z) (Schedule.durationMins activity) = false).
  { destruct (Schedule.durationMins activity) as [d|]; [|reflexivity].
    cbn [JS.lt]. apply Z.ltb_ge. apply Hd. reflexivity. }
  rewrite E.
  rewrite Q.max_l by lra. rewrite Q.min_l by exact Hmm. reflexivity.
Qed.

Lemma calculateItemHeight_between_witness :
  minItemHeight plainConfig <= calculateItemHeight plainConfig ScheduleFacts.brunch
  /\ calculateItemHeight plainConfig ScheduleFacts.brunch <= maxItemHeight plainConfig.
Proof.
destruct (calculateItemHeight_between plainConfig ScheduleFacts.brunch)
  as (H1 & H2 & _).
- cbn. discriminate.
- split; [exact H1|exact H2].
Defined.

(** X20.  Above the threshold, when no height in use is negative, every
    activity whose span meets the viewport is among the items returned, at
    the offset the heights before it add up to. *)
Theorem timeline_window_covers (activities : list Schedule.WeekendActivity)
    (config : TimelineConfig) (itemHeights : list Q) (scrollOffset : Q)
    (k : nat) (h : Q) :
  let heights := resolvedHeights (List.length activities) itemHeights config in
  (default 30%Z (threshold config) < Z.of_nat (List.length activities))%Z ->
  Forall (fun x => 0 <= x) heights ->
  nth_error heights k = Some h ->
  sumHeights (firstn k heights) < scrollOffset + containerHeight config ->
  scrollOffset < sumHeights (firstn k heights) + h ->
  In {| Virtual.index := Z.of_nat k;
        Virtual.start := sumHeights (firstn k heights);
        Virtual.end_ := sumHeights (firstn k heights) + h;
        Virtual.size := h |}
     (useTimelineVirtualization activities config itemHeights scrollOffset).
Proof.
intros heights Hthr Hpos Hk Hbefore Hafter.
unfold useTimelineVirtualization.
apply Z.ltb_lt in Hthr. rewrite Hthr. cbn [negb].
fold heights.
apply layout_In. exists k, h.
assert (Hlen : (k < List.length activities)%nat).
{ rewrite <- (resolvedHeights_length (List.length activities) itemHeights config).
  apply nth_error_Some. fold heights. congruence. }
split; [exact Hk|]. split; [|reflexivity].
split.
- unfold startIndexOf.
  destruct (findStart_first heights scrollOffset 0%Z 0 k h Hk Hafter)
    as (j & -> & Hj). lia.
- unfold endIndexOf.
  destruct (findEnd heights 0 0 (scrollOffset + containerHeight config))
    as [j|] eqn:E; [|lia].
  assert (Hkj : (0 + Z.of_nat k <= j)%Z).
  { apply (findEnd_last heights (scrollOffset + containerHeight config) Hpos
             0%Z 0 j k E); [|exact Hbefore].
    unfold heights. rewrite resolvedHeights_length. exact Hlen. }
  lia.
Qed.

Lemma timeline_window_covers_witness :
  In {| Virtual.index := 0%Z; Virtual.start := 0; Virtual.end_ := 0 + 60;
        Virtual.size := 60 |}
     (useTimelineVirtualization shortTimeline eagerConfig
        (measuredHeights shortTimeline eagerConfig) 0).
Proof.
apply (timeline_window_covers shortTimeline eagerConfig
         (measuredHeights shortTimeline eagerConfig) 0 0%nat 60).
- cbn. lia.
- repeat constructor; discriminate.
- reflexivity.
- reflexivity.
- reflexivity.
Defined.

(** X21.  Above the threshold, every item returned is an activity of the
    list, sits at the offset the heights before it add up to, and ends one
    height further. *)
Theorem timeline_items_at_offsets (activities : list Schedule.WeekendActivity)
    (config : TimelineConfig) (itemHeights : list Q) (scrollOffset : Q)
    (it : Virtual.VirtualItem) :
  let heights := resolvedHeights (List.length activities) itemHeights config in
  (default 30%Z (threshold config) < Z.of_nat (List.length activities))%Z ->
  In it (useTimelineVirtualization activities config itemHeights scrollOffset) ->
  exists k : nat,
    (k < List.length activities)%nat
    /\ Virtual.index it = Z.of_nat k
    /\ Virtual.size it = heightAt itemHeights config k
    /\ Virtual.start it = sumHeights (firstn k heights)
    /\ Virtual.end_ it = Virtual.start it + Virtual.size it.
Proof.
intros heights Hthr Hin.
unfold useTimelineVirtualization in Hin.
apply Z.ltb_lt in Hthr. rewrite Hthr in Hin. cbn [negb] in Hin.
fold heights in Hin.
apply layout_In in Hin. destruct Hin as (k & h & Hk & _ & ->).
exists k. cbn.
assert (Hlen : (k < List.length activities)%nat).
{ rewrite <- (resolvedHeights_length (List.length activities) itemHeights config).
  apply nth_error_Some. fold heights. congruence. }
split; [exact Hlen|]. split; [reflexivity|].
split; [|split; reflexivity].
unfold heights, resolvedHeights in Hk.
rewrite nth_error_map in Hk.
destruct (nth_error (seq 0 (List.length activities)) k) as [j|] eqn:E;
  [|discriminate].
apply VirtualMore.nth_error_seq_value in E. destruct E as [-> _].
cbn in Hk. congruence.
Qed.

Lemma heightAt_measured (activities : list Schedule.WeekendActivity)
    (config : TimelineConfig) (k : nat) (h : Q) :
  0 < minItemHeight config ->
  minItemHeight config <= maxItemHeight config ->
  nth_error (measuredHeights activities config) k = Some h ->
  heightAt (measuredHeights activities config) config k = h.
Proof.
intros Hpos Hmm Hk. unfold heightAt. rewrite Hk.
destruct (Qeq_bool h 0) eqn:E; [|reflexivity].
exfalso. apply Qeq_bool_iff in E.
unfold measuredHeights in Hk. rewrite nth_error_map in Hk.
destruct (nth_error activities k) as [a|]; [|discriminate].
cbn in Hk. injection Hk as <-.
pose proof (calculateItemHeight_ge_min config a Hmm). lra.
Qed.

(** X22.  At or below the threshold there is one item per activity.  Before
    the heights are measured every item starts and ends at offset 0 although
    its size is the minimum height; once they are measured, with a positive
    minimum not above the maximum, each item ends one size after its
    start. *)
Theorem small_timeline_items (activities : list Schedule.WeekendActivity)
    (config : TimelineConfig) (scrollOffset : Q) :
  (Z.of_nat (List.length activities) <= default 30%Z (threshold config))%Z ->
  (forall itemHeights,
      List.map Virtual.index
        (useTimelineVirtualization activities config itemHeights scrollOffset)
      = List.map Z.of_nat (seq 0 (List.length activities)))
  /\ (forall it,
      In it (useTimelineVirtualization activities config [] scrollOffset) ->
      Virtual.start it = 0 /\ Virtual.end_ it = 0
      /\ Virtual.size it = minItemHeight config)
  /\ (0 < minItemHeight config ->
      minItemHeight config <= maxItemHeight config ->
      forall it,
        In it (useTimelineVirtualization activities config
                 (measuredHeights activities config) scrollOffset) ->
        Virtual.end_ it = Virtual.start it + Virtual.size it).
Proof.
intros Hthr.
assert (E : (default 30%Z (threshold config)
             <? Z.of_nat (List.length activities))%Z = false)
  by (apply Z.ltb_ge; exact Hthr).
unfold useTimelineVirtualization. rewrite E. cbn [negb].
split; [|split].
- intros itemHeights. rewrite List.map_map. reflexivity.
- intros it Hin. apply in_map_iff in Hin. destruct Hin as (k & <- & _).
  cbn. unfold heightAt.
  replace (firstn k (@nil Q)) with (@nil Q) by (destruct k; reflexivity).
  replace (firstn (k + 1) (@nil Q)) with (@nil Q)
    by (destruct k; reflexivity).
  replace (nth_error (@nil Q) k) with (@None Q) by (destruct k; reflexivity).
  repeat split; reflexivity.
- intros Hpos Hmm it Hin. apply in_map_iff in Hin.
  destruct Hin as (k & <- & Hk). cbn.
  apply in_seq in Hk.
  destruct (nth_error (measuredHeights activities config) k) as [h|] eqn:Eh.
  + rewrite (sumHeights_succ _ k h Eh).
    rewrite (heightAt_measured activities config k h Hpos Hmm Eh).
    reflexivity.
  + exfalso. apply nth_error_None in Eh.
    unfold measuredHeights in Eh. rewrite List.length_map in Eh. lia.
Qed.

Lemma small_timeline_items_witness :
  List.map Virtual.index
    (useTimelineVirtualization shortTimeline plainConfig [] 0)
  = [0%Z; 1%Z].
Proof.
destruct (small_timeline_items shortTimeline plainConfig 0) as (H & _).
- cbn. lia.
- exact (H []).
Defined.

Lemma timeline_items_at_offsets_witness :
  exists k : nat,
    (k < 2)%nat
    /\ 0%Z = Z.of_nat k
    /\ Virtual.size
         {| Virtual.index := 0%Z; Virtual.start := 0; Virtual.end_ := 0 + 60;
            Virtual.size := 60 |}
       = heightAt (measuredHeights shortTimeline eagerConfig) eagerConfig k.
Proof.
destruct (timeline_items_at_offsets shortTimeline eagerConfig
            (measuredHeights shortTimeline eagerConfig) 0
            {| Virtual.index := 0%Z; Virtual.start := 0;
               Virtual.end_ := 0 + 60; Virtual.size := 60 |})
  as (k & Hk & Hi & Hs & _).
- cbn. lia.
- left. reflexivity.
- exists k. split; [exact Hk|]. split; [exact Hi|exact Hs].
Defined.

End TimelineFacts.

(* ===================================================================== *)
(** ** Saving, deleting and finding plans                                 *)
(* ===================================================================== *)

Module PlanStore.

Import Persistence.

(** [Omit<WeekendPlan, 'id' | 'createdAt' | 'updatedAt' | 'version'>]: what
    [savePlan] keeps of its argument. *)
Record NewPlan := {
  n_theme : Theme;
  n_activities : list Schedule.WeekendActivity;
  n_metadata : option Metadata;
}.

(** The promise of [savePlan]: the id, or the error of the request. *)
Inductive Saved :=
| SavedAs (planId : string)
| SaveRejected (message : string).

(** [`plan_${Date.now()}_${Math.random().toString(36).slice(2, 8)}`]: the
    text after [plan_] is the caller's [stamp]. *)
Definition newPlanId (stamp : string) : string := String.append "plan_" stamp.

Definition fullPlan (now : Date) (stamp : string) (plan : NewPlan)
    : WeekendPlan :=
  {| id := newPlanId stamp;
     theme := n_theme plan;
     activities := n_activities plan;
     createdAt := now;
     updatedAt := now;
     version := 1;
     metadata := n_metadata plan |}.

(** [setItem] throws when the storage cannot take the text, as when its
    quota is used up; [setItemThrows] tells whether it does.  The [catch]
    then rejects with an error of its own, and nothing was stored. *)
Definition savePlanToLocalStorage (setItemThrows : bool) (plan : WeekendPlan)
    (storage : gmap string WeekendPlan) : Saved * gmap string WeekendPlan :=
  if setItemThrows
  then (SaveRejected "Failed to save plan to localStorage", storage)
  else (SavedAs (id plan), <[planKey (id plan) := plan]> storage).

(** One read-write transaction: [plansStore.add] fails on an id that is
    present and the promise is rejected; once it succeeded the promise is
    resolved, and an [activitiesStore.add] that fails afterwards aborts the
    transaction, the added plan included. *)
Definition savePlanToIndexedDB (plan : WeekendPlan) (d : Database)
    : Saved * Database :=
  match plansStore d !! id plan with
  | Some _ => (SaveRejected "ConstraintError", d)
  | None =>
      match addActivities (activities plan) (id plan) (activitiesStore d) with
      | Some store' =>
          (SavedAs (id plan),
           {| plansStore := <[id plan := plan]> (plansStore d);
              activitiesStore := store' |})
      | None => (SavedAs (id plan), d)
      end
  end.

Definition savePlan (setItemThrows : bool) (now : Date) (stamp : string)
    (plan : NewPlan) (m : Manager) : Saved * Manager :=
  let fullPlan' := fullPlan now stamp plan in
  match db m with
  | Some d =>
      let '(r, d') := savePlanToIndexedDB fullPlan' d in
      (r, {| db := Some d'; localStorage := localStorage m |})
  | None =>
      let '(r, s') :=
        savePlanToLocalStorage setItemThrows fullPlan' (localStorage m) in
      (r, {| db := None; localStorage := s' |})
  end.

Definition deletePlanFromLocalStorage (planId : string)
    (storage : gmap string WeekendPlan) : gmap string WeekendPlan :=
  delete (planKey planId) storage.

Definition deletePlanFromIndexedDB (planId : string) (d : Database)
    : Database :=
  {| plansStore := delete planId (plansStore d);
     activitiesStore := deleteActivitiesOf planId (activitiesStore d) |}.

Definition deletePlan (planId : string) (m : Manager) : Manager :=
  match db m with
  | Some d =>
      {| db := Some (deletePlanFromIndexedDB planId d);
         localStorage := localStorage m |}
  | None =>
      {| db := None;
         localStorage := deletePlanFromLocalStorage planId (localStorage m) |}
  end.

(** The loop over [localStorage.key(i)]: [keys] is the sequence of keys in
    the order the storage enumerates them. *)
Fixpoint getAllPlansFromLocalStorage (keys : list string)
    (storage : gmap string WeekendPlan) : list WeekendPlan :=
  match keys with
  | [] => []
  | key :: rest =>
      let plans := getAllPlansFromLocalStorage rest storage in
      if String.prefix "weekendly.plan.plan_" key then
        match storage !! key with
        | Some plan => plan :: plans
        | None => plans
        end
      else plans
  end.

(** [store.getAll()]: [keys] is the sequence of the store's keys in key
    order. *)
Definition getAllPlansFromIndexedDB (keys : list string) (d : Database)
    : list WeekendPlan :=
  omap (fun key => plansStore d !! key) keys.

Definition getAllPlans (keys : list string) (m : Manager)
    : list WeekendPlan :=
  match db m with
  | Some d => getAllPlansFromIndexedDB keys d
  | None => getAllPlansFromLocalStorage keys (localStorage m)
  end.

Definition theme_eqb (a b : Theme) : bool :=
  match a, b with
  | lazy, lazy | adventurous, adventurous | family, family => true
  | _, _ => false
  end.

(** [p.metadata?.isTemplate] as a condition. *)
Definition isTemplatePlan (p : WeekendPlan) : bool :=
  match metadata p with
  | Some meta => default false (isTemplate meta)
  | None => false
  end.

Definition getThemePlan (keys : list string) (theme' : Theme) (m : Manager)
    : option WeekendPlan :=
  List.find (fun p => theme_eqb (theme p) theme' && negb (isTemplatePlan p))
    (getAllPlans keys m).

(** [saveThemePlan]: [asked] is the date of the patch, [now] the date the
    backend reads. *)
Definition saveThemePlan (setItemThrows : bool) (keys : list string)
    (asked now : Date) (stamp : string) (theme' : Theme)
    (activities' : list Schedule.WeekendActivity) (m : Manager)
    : Result * Manager :=
  match getThemePlan keys theme' m with
  | Some existingPlan =>
      updatePlan now (id existingPlan)
        {| u_id := None; u_theme := None;
           u_activities := Some activities';
           u_createdAt := None;
           u_updatedAt := Some asked;
           u_version := Some (version existingPlan + 1);
           u_metadata := None |} m
  | None =>
      let '(r, m') :=
        savePlan setItemThrows now stamp
          {| n_theme := theme'; n_activities := activities';
             n_metadata := Some {| tags := None; notes := None;
                                   isTemplate := Some false |} |} m in
      (match r with
       | SavedAs _ => Resolved
       | SaveRejected message => Rejected message
       end, m')
  end.

End PlanStore.

Module PlanStoreFacts.

Import Persistence. Import PlanStore.

Lemma planKey_inj (a b : string) : planKey a = planKey b -> a = b.
Proof.
unfold planKey. intros H.
repeat (rewrite PageFacts.append_step in H; injection H as H).
exact H.
Qed.

(** Every stored plan sits under the key of its own id: the key path of the
    plans store, the key [savePlan] writes on the localStorage backend. *)
Definition wellKeyed (m : Manager) : Prop :=
match db m with
| Some d => forall key p, plansStore d !! key = Some p -> key = id p
| None => forall key p, localStorage m !! key = Some p -> key = planKey (id p)
end.

(** [keys] enumerates the keys of the backend in use. *)
Definition enumerates (keys : list string) (m : Manager) : Prop :=
match db m with
| Some d => forall key, In key keys <-> is_Some (plansStore d !! key)
| None => forall key, In key keys <-> is_Some (localStorage m !! key)
end.


Lemma addActivities_clash (planId : string)
    (acts : list Schedule.WeekendActivity) :
  forall (store : gmap string ActivityRow) (a : Schedule.WeekendActivity),
    In a acts -> is_Some (store !! Schedule.id a) ->
    addActivities acts planId store = None.
Proof.
induction acts as [|b rest IH]; intros store a Hin Hsome; [destruct Hin|].
cbn [addActivities].
destruct (store !! Schedule.id b) eqn:E; [reflexivity|].
destruct Hin as [-> | Hin].
- rewrite E in Hsome. destruct Hsome as [? ?]. discriminate.
- apply (IH _ a Hin).
  destruct (decide (Schedule.id b = Schedule.id a)) as [Eq | Ne].
  + rewrite Eq. rewrite lookup_insert_eq. eauto.
  + rewrite lookup_insert_ne by exact Ne. exact Hsome.
Qed.

Lemma getAllPlansFromLocalStorage_In (storage : gmap string WeekendPlan)
    (p : WeekendPlan) (keys : list string) :
  In p (getAllPlansFromLocalStorage keys storage) <->
  exists key, In key keys
              /\ String.prefix "weekendly.plan.plan_" key = true
              /\ storage !! key = Some p.
Proof.
induction keys as [|key rest IH].
- cbn. split; [tauto|]. intros (k & [] & _).
- cbn [getAllPlansFromLocalStorage].
  destruct (String.prefix "weekendly.plan.plan_" key) eqn:Epre.
  + destruct (storage !! key) as [q|] eqn:Eq.
    * cbn [In]. rewrite IH. split.
      -- intros [<- | (k & Hk & Hp & Hs)].
         ++ exists key. split; [left; reflexivity|]. split; assumption.
         ++ exists k. split; [right; exact Hk|]. split; assumption.
      -- intros (k & [<- | Hk] & Hp & Hs).
         ++ left. congruence.
         ++ right. exists k. auto.
    * rewrite IH. split.
      -- intros (k & Hk & Hp & Hs). exists k. split; [right; exact Hk|].
         split; assumption.
      -- intros (k & [<- | Hk] & Hp & Hs); [congruence|]. exists k. auto.
  + rewrite IH. split.
    * intros (k & Hk & Hp & Hs). exists k. split; [right; exact Hk|].
      split; assumption.
    * intros (k & [<- | Hk] & Hp & Hs); [congruence|]. exists k. auto.
Qed.

Lemma getAllPlansFromIndexedDB_In (d : Database) (p : WeekendPlan)
    (keys : list string) :
  In p (getAllPlansFromIndexedDB keys d) <->
  exists key, In key keys /\ plansStore d !! key = Some p.
Proof.
unfold getAllPlansFromIndexedDB. rewrite <- list_elem_of_In.
rewrite list_elem_of_omap. split.
- intros (k & Hk & Hs). exists k. split; [apply list_elem_of_In; exact Hk|exact Hs].
- intros (k & Hk & Hs). exists k. split; [apply list_elem_of_In; exact Hk|exact Hs].
Qed.

Lemma theme_eqb_eq (a b : Theme) : theme_eqb a b = true <-> a = b.
Proof. destruct a, b; cbn; split; congruence. Qed.


Lemma wellKeyed_flatKeyManager : wellKeyed PersistenceFacts.flatKeyManager.
Proof.
intros key p H.
change (({[ planKey "plan_123_abc" := PersistenceFacts.storedPlan ]}
          : gmap string WeekendPlan) !! key = Some p) in H.
apply lookup_singleton_Some in H. destruct H as [<- <-].
reflexivity.
Qed.

Lemma wellKeyed_structuredManager :
  wellKeyed PersistenceFacts.structuredManager.
Proof.
intros key p H.
change (({[ "plan_123_abc"%string := PersistenceFacts.storedPlan ]}
          : gmap string WeekendPlan) !! key = Some p) in H.
apply lookup_singleton_Some in H. destruct H as [<- <-].
reflexivity.
Qed.




(** X24.  On the IndexedDB backend [savePlan] can settle without storing
    anything: an id that is taken rejects the promise, and an activity
    whose id already has a row aborts the transaction after the promise
    was resolved with the new id.  The database is the same in both
    cases. *)
Theorem savePlan_without_storing (setItemThrows : bool) (now : Date)
    (stamp : string) (plan : NewPlan) (d : Database)
    (storage : gmap string WeekendPlan) :
  let m := {| db := Some d; localStorage := storage |} in
  (is_Some (plansStore d !! newPlanId stamp) ->
   savePlan setItemThrows now stamp plan m
   = (SaveRejected "ConstraintError", m))
  /\ (plansStore d !! newPlanId stamp = None ->
      (exists a, In a (n_activities plan)
                 /\ is_Some (activitiesStore d !! Schedule.id a)) ->
      savePlan setItemThrows now stamp plan m = (SavedAs (newPlanId stamp), m)
      /\ getPlan (newPlanId stamp)
           (snd (savePlan setItemThrows now stamp plan m)) = None).
Proof.
intros m. unfold savePlan, savePlanToIndexedDB.
cbn [m db localStorage fullPlan id activities]. split.
- intros [q Hq]. rewrite Hq. reflexivity.
- intros Hid (a & Hin & Hrow). rewrite Hid.
  rewrite (addActivities_clash (newPlanId stamp) (n_activities plan)
             (activitiesStore d) a Hin Hrow).
  split; [reflexivity|]. exact Hid.
Qed.

(** X25.  After [deletePlan] the id has no plan and every other id has the
    plan it had.  On the IndexedDB backend no activity row of the deleted
    plan is left and the rows of other plans stay. *)
Theorem deletePlan_removes (planId : string) (m : Manager) :
  getPlan planId (deletePlan planId m) = None
  /\ (forall other, other <> planId ->
        getPlan other (deletePlan planId m) = getPlan other m)
  /\ (forall d d', db m = Some d -> db (deletePlan planId m) = Some d' ->
      forall key row,
        activitiesStore d' !! key = Some row <->
        activitiesStore d !! key = Some row /\ row_planId row <> planId).
Proof.
unfold deletePlan, getPlan. destruct (db m) as [d|] eqn:Edb.
- cbn [db deletePlanFromIndexedDB plansStore].
  split; [apply lookup_delete_eq|]. split.
  + intros other Hother. apply lookup_delete_ne. congruence.
  + intros d0 d' Hd0 Hd'. injection Hd0 as <-. injection Hd' as <-.
    intros key row. unfold deletePlanFromIndexedDB. cbn [activitiesStore].
    unfold deleteActivitiesOf.
    rewrite map_lookup_filter_Some. reflexivity.
- cbn [db localStorage]. unfold deletePlanFromLocalStorage.
  split; [apply lookup_delete_eq|]. split.
  + intros other Hother. apply lookup_delete_ne.
    intros E. apply planKey_inj in E. congruence.
  + intros d d' Hd. discriminate.
Qed.

(** X26.  [updatePlan] of an id that has no plan is rejected with
    [Plan not found] and changes nothing; an update whose patch carries no
    id changes no plan but the one of its id. *)
Theorem updatePlan_touches_one_plan (now : Date) (planId : string)
    (updates : PlanPatch) (m : Manager) :
  (getPlan planId m = None ->
   updatePlan now planId updates m = (Rejected "Plan not found", m))
  /\ (wellKeyed m -> u_id updates = None ->
      forall other, other <> planId ->
        getPlan other (snd (updatePlan now planId updates m))
        = getPlan other m).
Proof.
unfold updatePlan, getPlan, wellKeyed.
destruct m as [[d|] storage]; cbn [db localStorage].
- unfold updatePlanInIndexedDB. split.
  + intros ->. reflexivity.
  + intros Hkeys Hnoid other Hother.
    destruct (plansStore d !! planId) as [p|] eqn:Ep; [|reflexivity].
    assert (Hkey : id (withVersion (version p + 1)
                         (withUpdatedAt now (spread p updates))) = planId).
    { cbn [withVersion withUpdatedAt spread id]. rewrite Hnoid. cbn.
      symmetry. apply (Hkeys planId p Ep). }
    rewrite Hkey.
    destruct (u_activities updates) as [acts|].
    * destruct (addActivities acts planId _); cbn [snd db plansStore];
        [|reflexivity].
      apply lookup_insert_ne. congruence.
    * cbn [snd db plansStore]. apply lookup_insert_ne. congruence.
- unfold updatePlanInLocalStorage. split.
  + intros ->. reflexivity.
  + intros _ _ other Hother.
    destruct (storage !! planKey planId) as [p|]; [|reflexivity].
    cbn [snd db localStorage]. apply lookup_insert_ne.
    intros E. apply planKey_inj in E. congruence.
Qed.

(** A second plan beside the stored one, on the IndexedDB backend. *)
Definition familyPlan : WeekendPlan :=
{| id := "plan_456_def"; theme := family; activities := [];
   createdAt := 3000; updatedAt := 3000; version := 4; metadata := None |}.

Definition twoPlanManager : Manager :=
{| db := Some {| plansStore :=
                   <["plan_456_def"%string := familyPlan]>
                     {[ "plan_123_abc"%string := PersistenceFacts.storedPlan ]};
                 activitiesStore := ∅ |};
   localStorage := ∅ |}.

Lemma wellKeyed_twoPlanManager : wellKeyed twoPlanManager.
Proof.
intros key p H.
change ((<["plan_456_def"%string := familyPlan]>
           ({[ "plan_123_abc"%string := PersistenceFacts.storedPlan ]}
              : gmap string WeekendPlan)) !! key = Some p) in H.
apply lookup_insert_Some in H. destruct H as [[<- <-] | [_ H]]; [reflexivity|].
apply lookup_singleton_Some in H. destruct H as [<- <-]. reflexivity.
Qed.

Lemma updatePlan_touches_one_plan_witness :
  getPlan "plan_123_abc"
    (snd (updatePlan 5000 "plan_456_def" PersistenceFacts.themePatch
            twoPlanManager))
  = getPlan "plan_123_abc" twoPlanManager
  /\ getPlan "plan_456_def"
       (snd (updatePlan 5000 "plan_456_def" PersistenceFacts.themePatch
               twoPlanManager))
     <> getPlan "plan_456_def" twoPlanManager.
Proof.
split.
- destruct (updatePlan_touches_one_plan 5000 "plan_456_def"
              PersistenceFacts.themePatch twoPlanManager) as [_ H].
  apply H.
  + exact wellKeyed_twoPlanManager.
  + reflexivity.
  + discriminate.
- vm_compute. discriminate.
Defined.

Lemma getAllPlans_stored (keys : list string) (m : Manager) (p : WeekendPlan) :
  wellKeyed m -> In p (getAllPlans keys m) -> getPlan (id p) m = Some p.
Proof.
unfold wellKeyed, getAllPlans, getPlan. destruct (db m) as [d|].
- intros Hkeys Hin. apply getAllPlansFromIndexedDB_In in Hin.
  destruct Hin as (key & _ & Hs). rewrite <- (Hkeys key p Hs). exact Hs.
- intros Hkeys Hin. apply getAllPlansFromLocalStorage_In in Hin.
  destruct Hin as (key & _ & _ & Hs). rewrite <- (Hkeys key p Hs). exact Hs.
Qed.

Lemma prefix_planKey (planId : string) :
  String.prefix "weekendly.plan.plan_" (planKey planId)
  = String.prefix "plan_" planId.
Proof. reflexivity. Qed.

(** X27.  [getThemePlan] returns a stored plan of the theme that is not a
    template.  When it returns nothing although such a plan is stored, the
    backend is localStorage and the id of that plan does not start with
    [plan_]. *)
Theorem getThemePlan_finds (keys : list string) (theme' : Theme)
    (m : Manager) :
  wellKeyed m -> enumerates keys m ->
  (forall p, getThemePlan keys theme' m = Some p ->
     getPlan (id p) m = Some p /\ theme p = theme'
     /\ isTemplatePlan p = false)
  /\ (getThemePlan keys theme' m = None ->
      forall planId p,
        getPlan planId m = Some p -> theme p = theme' ->
        isTemplatePlan p = false ->
        db m = None /\ String.prefix "plan_" planId = false).
Proof.
intros Hkeyed Henum. unfold getThemePlan. split.
- intros p Hfind. apply List.find_some in Hfind. destruct Hfind as [Hin Hf].
  apply andb_true_iff in Hf. destruct Hf as [Ht Hn].
  split; [apply (getAllPlans_stored keys); assumption|].
  split; [apply theme_eqb_eq; exact Ht|].
  apply negb_true_iff. exact Hn.
- intros Hnone planId p Hget Htheme Htemplate.
  assert (Hout : ~ In p (getAllPlans keys m)).
  { intros Hin. pose proof (List.find_none _ _ Hnone p Hin) as Hf.
    cbn beta in Hf. rewrite Htemplate in Hf.
    assert (Ht : theme_eqb (theme p) theme' = true)
      by (apply theme_eqb_eq; exact Htheme).
    rewrite Ht in Hf. discriminate. }
  unfold enumerates in Henum. unfold getAllPlans in Hout.
  unfold getPlan in Hget.
  destruct (db m) as [d|].
  + exfalso. apply Hout. apply getAllPlansFromIndexedDB_In.
    exists planId. split; [|exact Hget]. apply Henum. eauto.
  + split; [reflexivity|].
    destruct (String.prefix "plan_" planId) eqn:Epre; [|reflexivity].
    exfalso. apply Hout. apply getAllPlansFromLocalStorage_In.
    exists (planKey planId). split; [apply Henum; eauto|].
    split; [rewrite prefix_planKey; exact Epre|exact Hget].
Qed.

Lemma enumerates_flatKeyManager :
  enumerates [planKey "plan_123_abc"] PersistenceFacts.flatKeyManager.
Proof.
intros key.
change (In key [planKey "plan_123_abc"] <->
        is_Some (({[ planKey "plan_123_abc" := PersistenceFacts.storedPlan ]}
                    : gmap string WeekendPlan) !! key)).
split.
- intros [<- | []]. rewrite lookup_singleton_eq. eauto.
- intros [p Hp]. apply lookup_singleton_Some in Hp. destruct Hp as [<- _].
  left. reflexivity.
Qed.

Lemma getThemePlan_finds_witness :
  getPlan (id PersistenceFacts.storedPlan) PersistenceFacts.flatKeyManager
  = Some PersistenceFacts.storedPlan.
Proof.
destruct (getThemePlan_finds [planKey "plan_123_abc"] lazy
            PersistenceFacts.flatKeyManager wellKeyed_flatKeyManager
            enumerates_flatKeyManager) as [H _].
destruct (H PersistenceFacts.storedPlan) as [Hget _].
- reflexivity.
- exact Hget.
Defined.



(** X29.  Saving, deleting, updating with a patch that carries no id, and
    [saveThemePlan] all keep every stored plan under the key of its own
    id. *)
Theorem handlers_keep_wellKeyed (m : Manager) :
  wellKeyed m ->
  (forall setItemThrows now stamp plan,
      wellKeyed (snd (savePlan setItemThrows now stamp plan m)))
  /\ (forall planId, wellKeyed (deletePlan planId m))
  /\ (forall now planId updates,
        u_id updates = None ->
        wellKeyed (snd (updatePlan now planId updates m)))
  /\ (forall setItemThrows keys asked now stamp theme' activities',
        wellKeyed
          (snd (saveThemePlan setItemThrows keys asked now stamp theme'
                  activities' m))).
Proof.
intros Hkeyed.
assert (Hsave : forall setItemThrows now stamp plan,
           wellKeyed (snd (savePlan setItemThrows now stamp plan m))).
{ intros setItemThrows now stamp plan.
  unfold savePlan, wellKeyed in Hkeyed |- *.
  destruct (db m) as [d|].
  - unfold savePlanToIndexedDB. cbn [fullPlan id activities].
    destruct (plansStore d !! newPlanId stamp); [exact Hkeyed|].
    destruct (addActivities _ _ _); cbn [snd db plansStore]; [|exact Hkeyed].
    intros key p Hp. apply lookup_insert_Some in Hp.
    destruct Hp as [[<- <-] | [_ Hp]]; [reflexivity|apply Hkeyed; exact Hp].
  - unfold savePlanToLocalStorage.
    destruct setItemThrows; cbn [snd db localStorage fullPlan id];
      [exact Hkeyed|].
    intros key p Hp. apply lookup_insert_Some in Hp.
    destruct Hp as [[<- <-] | [_ Hp]]; [reflexivity|apply Hkeyed; exact Hp]. }
assert (Hupdate : forall now planId updates,
           u_id updates = None ->
           wellKeyed (snd (updatePlan now planId updates m))).
{ intros now planId updates Hnoid. unfold updatePlan, wellKeyed in Hkeyed |- *.
  destruct (db m) as [d|].
  - unfold updatePlanInIndexedDB.
    destruct (plansStore d !! planId) as [q|] eqn:Eq; [|exact Hkeyed].
    cbn zeta.
    destruct (u_activities updates) as [acts|].
    + destruct (addActivities acts planId _); cbn [snd db plansStore];
        [|exact Hkeyed].
      intros key p Hp. apply lookup_insert_Some in Hp.
      destruct Hp as [[<- <-] | [_ Hp]]; [reflexivity|apply Hkeyed; exact Hp].
    + cbn [snd db plansStore].
      intros key p Hp. apply lookup_insert_Some in Hp.
      destruct Hp as [[<- <-] | [_ Hp]]; [reflexivity|apply Hkeyed; exact Hp].
  - unfold updatePlanInLocalStorage.
    destruct (localStorage m !! planKey planId) as [q|] eqn:Eq;
      [|exact Hkeyed].
    cbn [snd db localStorage].
    intros key p Hp. apply lookup_insert_Some in Hp.
    destruct Hp as [[<- <-] | [_ Hp]]; [|apply Hkeyed; exact Hp].
    cbn [withUpdatedAt spread id]. rewrite Hnoid. cbn [default Datatypes.id].
    apply (Hkeyed _ _ Eq). }
split; [exact Hsave|]. split; [|split; [exact Hupdate|]].
- intros planId. unfold deletePlan, wellKeyed in Hkeyed |- *.
  destruct (db m) as [d|]; cbn [db localStorage].
  + unfold deletePlanFromIndexedDB. cbn [plansStore].
    intros key p Hp. apply lookup_delete_Some in Hp.
    apply Hkeyed. tauto.
  + unfold deletePlanFromLocalStorage.
    intros key p Hp. apply lookup_delete_Some in Hp.
    apply Hkeyed. tauto.
- intros setItemThrows keys asked now stamp theme' activities'.
  unfold saveThemePlan.
  destruct (getThemePlan keys theme' m) as [p|].
  + apply Hupdate. reflexivity.
  + pose proof (Hsave setItemThrows now stamp
                  {| n_theme := theme'; n_activities := activities';
                     n_metadata := Some {| tags := None; notes := None;
                                           isTemplate := Some false |} |})
      as H.
    destruct (savePlan setItemThrows now stamp _ m) as [r m']. exact H.
Qed.

Lemma handlers_keep_wellKeyed_witness :
  wellKeyed (deletePlan "plan_123_abc" PersistenceFacts.flatKeyManager).
Proof.
destruct (handlers_keep_wellKeyed PersistenceFacts.flatKeyManager
            wellKeyed_flatKeyManager) as (_ & H & _).
exact (H "plan_123_abc"%string).
Defined.




End PlanStoreFacts.
